(** * The osd-dev configuration resolver

    A shallow embedding of the development-environment scripts under
    [docker/osd-dev/scripts/src/services]:

    - [environmentConfigurator.ts]: [configureModeAndSecurity];
    - [repoResolver.ts]: [resolveRepositoryHostPath];
    - the argument parser: [printUsageAndExit], [parseArguments].

    Strings are Stdlib strings; an unset string is the empty string, as
    the code tests them by truthiness.  The process environment is a
    finite map from variable names to values, threaded through every
    function that writes it.  A [throw] is a result, never a partial
    function: an outcome is a returned value, a thrown error, or the
    process exit of the usage printer. *)

From Stdlib Require Import String Ascii List Bool Arith Lia.
From stdpp Require Import base option gmap strings list.
Import ListNotations.


(** ** JavaScript string primitives *)

Module Js.

(** [s.startsWith(p)] *)
Definition startsWith (s p : string) : bool := String.prefix p s.

(** [s.includes(p)]: [p] occurs somewhere in [s]. *)
Fixpoint includes (s p : string) : bool :=
  String.prefix p s ||
  match s with
  | EmptyString => false
  | String _ s' => includes s' p
  end.

(** [s.split(c)] for a one-character separator: the pieces between the
    separators, in order; never the empty array. *)
Fixpoint split (s : string) (c : ascii) : list string :=
  match s with
  | EmptyString => [EmptyString]
  | String a s' =>
      if Ascii.eqb a c then EmptyString :: split s' c
      else match split s' c with
           | [] => [String a EmptyString]
           | p :: ps => String a p :: ps
           end
  end.

(** Truthiness of a string: every string but the empty one. *)
Definition truthy (s : string) : bool := negb (String.eqb s "").

(** [list.includes(x)] / [set.has(x)] on strings. *)
Definition has (l : list string) (x : string) : bool :=
  existsb (String.eqb x) l.

End Js.

(** ** Errors and outcomes *)

(** The messages of [constants/messages], kept symbolic: one constructor
    per message function or constant the services import, applied to the
    arguments the code passes.  [msgText] carries a template literal
    written at the throw site. *)
Inductive Message : Type :=
| msgEnvNotSet (variable : string)
| msgRepoPathMustBeAbsolute (repo hostPath : string)
| msgRepoPathNotProvided (repo : string)
| msgInvalidRepoSubfolder (repo repoPath : string)
| msgFlagRequiresAbsolutePath (flag : string)
| msgFlagRequiresValue (flag example : string)
| msgInvalidAgentsUp (flag : string)
| msgCannotResolveRepositoryUnderCommonParent (repo flag variable : string)
| msgUnsupportedOption (arg : string)
| msgActionProvidedMultiple (previous arg : string)
| msgPositionalArgsNotAllowed (arg : string)
| msgCannotInferDashboardBase
| msgUnableLocateWazuhDashboardAuto
| msgBaseRequiresAbsolute
| msgCannotCombineServerFlags
| msgUnsupportedModeToken
| MSG_SERVER_MODE_REQUIRES_VERSION
| MSG_SERVER_LOCAL_MODE_REQUIRES_VERSION
| msgText (text : string).

(** The two error classes of [errors], and the [TypeError] the runtime
    raises when a method is called on [undefined]. *)
Inductive Error : Type :=
| ValidationError (m : Message)
| ConfigurationError (m : Message)
| TypeError.

Inductive Outcome (A : Type) : Type :=
| Return (a : A)
| Throw (e : Error)
| Exit (code : nat).

Arguments Return {A} a.
Arguments Throw {A} e.
Arguments Exit {A} code.

Definition isValidationError {A} (o : Outcome A) : Prop :=
  exists m, o = Throw (ValidationError m).

(** The process environment, [process.env]. *)
Abbreviation ProcessEnv := (gmap string string).

(** ** Configuration records *)

Record RepositoryOverride : Type := {
  name : string;
  path : string
}.

(** Modelled from the spec: the [Config] class of [types/config] is not
    among the sources.  Its fields are those the services read and the
    data model lists; an unset string is empty; each setter assigns its
    field (the provenance argument only feeds diagnostics, "the value
    itself is authoritative regardless of provenance"), and
    [addUserRepositoryOverride] appends to the ordered sequence. *)
Record Config : Type := {
  action : string;
  pluginsRoot : string;
  osVersion : string;
  osdVersion : string;
  agentsUp : string;
  enableSaml : bool;
  serverFlagVersion : string;
  serverLocalFlagVersion : string;
  mode : string;
  modeVersion : string;
  useDashboardFromSource : bool;
  dashboardBase : string;
  useIndexerFromPackage : bool;
  userRepositories : list RepositoryOverride
}.

Definition newConfig : Config :=
  {| action := ""; pluginsRoot := ""; osVersion := ""; osdVersion := "";
     agentsUp := ""; enableSaml := false; serverFlagVersion := "";
     serverLocalFlagVersion := ""; mode := ""; modeVersion := "";
     useDashboardFromSource := false; dashboardBase := "";
     useIndexerFromPackage := false; userRepositories := [] |}.

Definition setAction (v : string) (c : Config) : Config :=
  {| action := v; pluginsRoot := pluginsRoot c; osVersion := osVersion c;
     osdVersion := osdVersion c; agentsUp := agentsUp c;
     enableSaml := enableSaml c; serverFlagVersion := serverFlagVersion c;
     serverLocalFlagVersion := serverLocalFlagVersion c; mode := mode c;
     modeVersion := modeVersion c;
     useDashboardFromSource := useDashboardFromSource c;
     dashboardBase := dashboardBase c;
     useIndexerFromPackage := useIndexerFromPackage c;
     userRepositories := userRepositories c |}.

Definition setPluginsRoot (v : string) (c : Config) : Config :=
  {| action := action c; pluginsRoot := v; osVersion := osVersion c;
     osdVersion := osdVersion c; agentsUp := agentsUp c;
     enableSaml := enableSaml c; serverFlagVersion := serverFlagVersion c;
     serverLocalFlagVersion := serverLocalFlagVersion c; mode := mode c;
     modeVersion := modeVersion c;
     useDashboardFromSource := useDashboardFromSource c;
     dashboardBase := dashboardBase c;
     useIndexerFromPackage := useIndexerFromPackage c;
     userRepositories := userRepositories c |}.

Definition setOsVersion (v : string) (c : Config) : Config :=
  {| action := action c; pluginsRoot := pluginsRoot c; osVersion := v;
     osdVersion := osdVersion c; agentsUp := agentsUp c;
     enableSaml := enableSaml c; serverFlagVersion := serverFlagVersion c;
     serverLocalFlagVersion := serverLocalFlagVersion c; mode := mode c;
     modeVersion := modeVersion c;
     useDashboardFromSource := useDashboardFromSource c;
     dashboardBase := dashboardBase c;
     useIndexerFromPackage := useIndexerFromPackage c;
     userRepositories := userRepositories c |}.

Definition setOsdVersion (v : string) (c : Config) : Config :=
  {| action := action c; pluginsRoot := pluginsRoot c;
     osVersion := osVersion c; osdVersion := v; agentsUp := agentsUp c;
     enableSaml := enableSaml c; serverFlagVersion := serverFlagVersion c;
     serverLocalFlagVersion := serverLocalFlagVersion c; mode := mode c;
     modeVersion := modeVersion c;
     useDashboardFromSource := useDashboardFromSource c;
     dashboardBase := dashboardBase c;
     useIndexerFromPackage := useIndexerFromPackage c;
     userRepositories := userRepositories c |}.

Definition setAgentsUp (v : string) (c : Config) : Config :=
  {| action := action c; pluginsRoot := pluginsRoot c;
     osVersion := osVersion c; osdVersion := osdVersion c; agentsUp := v;
     enableSaml := enableSaml c; serverFlagVersion := serverFlagVersion c;
     serverLocalFlagVersion := serverLocalFlagVersion c; mode := mode c;
     modeVersion := modeVersion c;
     useDashboardFromSource := useDashboardFromSource c;
     dashboardBase := dashboardBase c;
     useIndexerFromPackage := useIndexerFromPackage c;
     userRepositories := userRepositories c |}.

Definition setEnableSaml (v : bool) (c : Config) : Config :=
  {| action := action c; pluginsRoot := pluginsRoot c;
     osVersion := osVersion c; osdVersion := osdVersion c;
     agentsUp := agentsUp c; enableSaml := v;
     serverFlagVersion := serverFlagVersion c;
     serverLocalFlagVersion := serverLocalFlagVersion c; mode := mode c;
     modeVersion := modeVersion c;
     useDashboardFromSource := useDashboardFromSource c;
     dashboardBase := dashboardBase c;
     useIndexerFromPackage := useIndexerFromPackage c;
     userRepositories := userRepositories c |}.

Definition setServerFlagVersion (v : string) (c : Config) : Config :=
  {| action := action c; pluginsRoot := pluginsRoot c;
     osVersion := osVersion c; osdVersion := osdVersion c;
     agentsUp := agentsUp c; enableSaml := enableSaml c;
     serverFlagVersion := v;
     serverLocalFlagVersion := serverLocalFlagVersion c; mode := mode c;
     modeVersion := modeVersion c;
     useDashboardFromSource := useDashboardFromSource c;
     dashboardBase := dashboardBase c;
     useIndexerFromPackage := useIndexerFromPackage c;
     userRepositories := userRepositories c |}.

Definition setServerLocalFlagVersion (v : string) (c : Config) : Config :=
  {| action := action c; pluginsRoot := pluginsRoot c;
     osVersion := osVersion c; osdVersion := osdVersion c;
     agentsUp := agentsUp c; enableSaml := enableSaml c;
     serverFlagVersion := serverFlagVersion c;
     serverLocalFlagVersion := v; mode := mode c;
     modeVersion := modeVersion c;
     useDashboardFromSource := useDashboardFromSource c;
     dashboardBase := dashboardBase c;
     useIndexerFromPackage := useIndexerFromPackage c;
     userRepositories := userRepositories c |}.

Definition setMode (v : string) (c : Config) : Config :=
  {| action := action c; pluginsRoot := pluginsRoot c;
     osVersion := osVersion c; osdVersion := osdVersion c;
     agentsUp := agentsUp c; enableSaml := enableSaml c;
     serverFlagVersion := serverFlagVersion c;
     serverLocalFlagVersion := serverLocalFlagVersion c; mode := v;
     modeVersion := modeVersion c;
     useDashboardFromSource := useDashboardFromSource c;
     dashboardBase := dashboardBase c;
     useIndexerFromPackage := useIndexerFromPackage c;
     userRepositories := userRepositories c |}.

Definition setModeVersion (v : string) (c : Config) : Config :=
  {| action := action c; pluginsRoot := pluginsRoot c;
     osVersion := osVersion c; osdVersion := osdVersion c;
     agentsUp := agentsUp c; enableSaml := enableSaml c;
     serverFlagVersion := serverFlagVersion c;
     serverLocalFlagVersion := serverLocalFlagVersion c; mode := mode c;
     modeVersion := v;
     useDashboardFromSource := useDashboardFromSource c;
     dashboardBase := dashboardBase c;
     useIndexerFromPackage := useIndexerFromPackage c;
     userRepositories := userRepositories c |}.

Definition setUseDashboardFromSource (v : bool) (c : Config) : Config :=
  {| action := action c; pluginsRoot := pluginsRoot c;
     osVersion := osVersion c; osdVersion := osdVersion c;
     agentsUp := agentsUp c; enableSaml := enableSaml c;
     serverFlagVersion := serverFlagVersion c;
     serverLocalFlagVersion := serverLocalFlagVersion c; mode := mode c;
     modeVersion := modeVersion c;
     useDashboardFromSource := v;
     dashboardBase := dashboardBase c;
     useIndexerFromPackage := useIndexerFromPackage c;
     userRepositories := userRepositories c |}.

Definition setDashboardBase (v : string) (c : Config) : Config :=
  {| action := action c; pluginsRoot := pluginsRoot c;
     osVersion := osVersion c; osdVersion := osdVersion c;
     agentsUp := agentsUp c; enableSaml := enableSaml c;
     serverFlagVersion := serverFlagVersion c;
     serverLocalFlagVersion := serverLocalFlagVersion c; mode := mode c;
     modeVersion := modeVersion c;
     useDashboardFromSource := useDashboardFromSource c;
     dashboardBase := v;
     useIndexerFromPackage := useIndexerFromPackage c;
     userRepositories := userRepositories c |}.

Definition setUseIndexerFromPackage (v : bool) (c : Config) : Config :=
  {| action := action c; pluginsRoot := pluginsRoot c;
     osVersion := osVersion c; osdVersion := osdVersion c;
     agentsUp := agentsUp c; enableSaml := enableSaml c;
     serverFlagVersion := serverFlagVersion c;
     serverLocalFlagVersion := serverLocalFlagVersion c; mode := mode c;
     modeVersion := modeVersion c;
     useDashboardFromSource := useDashboardFromSource c;
     dashboardBase := dashboardBase c;
     useIndexerFromPackage := v;
     userRepositories := userRepositories c |}.

Definition addUserRepositoryOverride (o : RepositoryOverride) (c : Config)
  : Config :=
  {| action := action c; pluginsRoot := pluginsRoot c;
     osVersion := osVersion c; osdVersion := osdVersion c;
     agentsUp := agentsUp c; enableSaml := enableSaml c;
     serverFlagVersion := serverFlagVersion c;
     serverLocalFlagVersion := serverLocalFlagVersion c; mode := mode c;
     modeVersion := modeVersion c;
     useDashboardFromSource := useDashboardFromSource c;
     dashboardBase := dashboardBase c;
     useIndexerFromPackage := useIndexerFromPackage c;
     userRepositories := userRepositories c ++ [o] |}.

(** [EnvironmentPaths] of [types/config]: read-only host roots; an unset
    root is empty. *)
Record EnvironmentPaths : Type := {
  currentRepoHostRoot : string;
  siblingRepoHostRoot : string;
  packageJsonPath : string
}.

(** ** Constants of [constants/app] *)

(** Modelled from the spec: [PROFILES] of [constants/app] is not among
    the sources; the profile strings are the ones the spec names (mode
    "server", "server-local", SAML, the default "standard" profile). *)
Module PROFILES.
Definition STANDARD : string := "standard".
Definition SAML : string := "saml".
Definition SERVER : string := "server".
Definition SERVER_LOCAL : string := "server-local".
End PROFILES.

(** The other constants the services import, taken as parameters: the
    flag spellings, the action verbs, the security-plugin alias table,
    and the OSD 2.x track with its security-config root. *)
Record AppConstants : Type := {
  FLAG_HELP : string;
  FLAG_HELP_SHORT : string;
  FLAG_PLUGINS_ROOT : string;
  FLAG_PLUGINS_ROOT_WDP : string;
  FLAG_PLUGINS_ROOT_WZ_HOME : string;
  FLAG_OS_VERSION : string;
  FLAG_OSD_VERSION : string;
  FLAG_AGENTS_UP : string;
  FLAG_SAML : string;
  FLAG_SERVER : string;
  FLAG_SERVER_LOCAL : string;
  FLAG_REPO : string;
  FLAG_BASE : string;
  FLAG_INDEXER_LOCAL : string;
  ACTIONS : list string;
  SECURITY_PLUGIN_ALIASES : list string;
  SECURITY_PLUGIN_REPO_NAME : string;
  OSD_MAJOR_2X : string;
  SECURITY_CONFIG_PATH_2X : string  (* SECURITY_CONFIG_PATHS[OSD_MAJOR_2X] *)
}.

(** ** environmentConfigurator.ts *)

Section EnvironmentConfigurator.

Variable K : AppConstants.

Definition dashboardConf : string :=
  "./config/" +:+ OSD_MAJOR_2X K +:+ "/osd/opensearch_dashboards.yml".
Definition securityConf : string :=
  "./config/" +:+ OSD_MAJOR_2X K +:+ "/os/config.yml".
Definition dashboardConfSaml : string :=
  "./config/" +:+ OSD_MAJOR_2X K +:+ "/osd/opensearch_dashboards_saml.yml".
Definition securityConfSaml : string :=
  "./config/" +:+ OSD_MAJOR_2X K +:+ "/os/config-saml.yml".

(** [new RegExp(`^${PROFILES.SERVER_LOCAL}-`).test(m)]: the profile
    string has no regular-expression operator, so the test is a prefix
    test. *)
Definition isCompositeServerLocal (m : string) : bool :=
  Js.startsWith m (PROFILES.SERVER_LOCAL +:+ "-").

Definition configureModeAndSecurity (config : Config) (env : ProcessEnv)
  : ProcessEnv * Outcome string :=
  let primaryProfile := PROFILES.STANDARD in
  let env := <["WAZUH_DASHBOARD_CONF" := dashboardConf]> env in
  let env := <["SEC_CONFIG_FILE" := securityConf]> env in
  let env := <["SEC_CONFIG_PATH" := SECURITY_CONFIG_PATH_2X K]> env in
  let enableSaml :=
    enableSaml config || String.eqb (mode config) PROFILES.SAML in
  let env :=
    if enableSaml
    then <["SEC_CONFIG_FILE" := securityConfSaml]>
           (<["WAZUH_DASHBOARD_CONF" := dashboardConfSaml]> env)
    else env in
  if isCompositeServerLocal (mode config) then
    (env, Throw (ValidationError msgUnsupportedModeToken))
  else if String.eqb (mode config) PROFILES.SERVER then
    if negb (Js.truthy (modeVersion config)) then
      (env, Throw (ValidationError MSG_SERVER_MODE_REQUIRES_VERSION))
    else
      (<["WAZUH_STACK" := modeVersion config]> env, Return PROFILES.SERVER)
  else if String.eqb (mode config) PROFILES.SERVER_LOCAL then
    if negb (Js.truthy (modeVersion config)) then
      (env, Throw (ValidationError MSG_SERVER_LOCAL_MODE_REQUIRES_VERSION))
    else
      (<["IMAGE_TAG" := modeVersion config]> env,
       Return (if Js.truthy (agentsUp config)
               then PROFILES.SERVER_LOCAL +:+ "-" +:+ agentsUp config
               else PROFILES.SERVER_LOCAL))
  else if String.eqb (mode config) PROFILES.SAML then
    (env, Return PROFILES.SAML)
  else
    (env, Return primaryProfile).

(** The environment after the configuration-file selection, before
    the profile is resolved: what the assignments above the regular
    expression test leave. *)
Definition afterFileSelection (config : Config) (env : ProcessEnv)
  : ProcessEnv :=
  let env := <["SEC_CONFIG_PATH" := SECURITY_CONFIG_PATH_2X K]>
               (<["SEC_CONFIG_FILE" := securityConf]>
                  (<["WAZUH_DASHBOARD_CONF" := dashboardConf]> env)) in
  if enableSaml config || String.eqb (mode config) PROFILES.SAML
  then <["SEC_CONFIG_FILE" := securityConfSaml]>
         (<["WAZUH_DASHBOARD_CONF" := dashboardConfSaml]> env)
  else env.

End EnvironmentConfigurator.

(** ** The host: [utils/pathUtils], [path] and [fs] *)

(** The path utilities and the two Node modules the services call are
    not among the sources; they only read the file system, so each is a
    function of its arguments.  [ensureAccessibleHostPath] returns
    [None] when the check passes and [Some e] when it throws [e]. *)
Record Host : Type := {
  stripTrailingSlash : string -> string;
  toContainerPath : string -> EnvironmentPaths -> string;
  ensureAccessibleHostPath :
    string -> string -> EnvironmentPaths -> option Error;
  resolve : string -> string -> string;
  existsSync : string -> bool
}.

(** ** repoResolver.ts *)

Section RepoResolver.

Variable H : Host.

(** The [for (const candidate of candidates)] loop of the [find]
    callback: [Some candidate] when the callback assigns [hostPath]
    and returns [true], [None] when it falls out of the loop. *)
Fixpoint probeCandidates (envPaths : EnvironmentPaths)
    (candidates : list string) : option string :=
  match candidates with
  | [] => None
  | candidate :: rest =>
      let containerCandidate := toContainerPath H candidate envPaths in
      if Js.truthy containerCandidate && existsSync H containerCandidate
      then
        let containerPackage :=
          resolve H containerCandidate "package.json" in
        if negb (existsSync H containerPackage)
        then probeCandidates envPaths rest
        else Some candidate
      else probeCandidates envPaths rest
  end.

(** The callback given to [find]. *)
Definition probeBase (repoName : string) (envPaths : EnvironmentPaths)
    (base : string) : option string :=
  if negb (Js.truthy base) then None
  else
    probeCandidates envPaths
      [ base +:+ "/plugins/" +:+ repoName;
        base +:+ "/" +:+ repoName;
        base ].

(** [bases.find(callback)]: the callback runs on the bases in order
    until it returns [true]; the result is the [hostPath] it left. *)
Fixpoint findBase (repoName : string) (envPaths : EnvironmentPaths)
    (bases : list string) : option string :=
  match bases with
  | [] => None
  | base :: rest =>
      match probeBase repoName envPaths base with
      | Some hostPath => Some hostPath
      | None => findBase repoName envPaths rest
      end
  end.

Definition candidateBases (config : Config) (envPaths : EnvironmentPaths)
  : list string :=
  (if Js.truthy (pluginsRoot config) then [pluginsRoot config] else [])
  ++ [currentRepoHostRoot envPaths]
  ++ (if Js.truthy (siblingRepoHostRoot envPaths)
      then [ resolve H (siblingRepoHostRoot envPaths)
               "wazuh-dashboard-plugins";
             resolve H (siblingRepoHostRoot envPaths) "wazuh-dashboard" ]
      else []).

(** [userRepositories.find(o => o.name === repoName)] *)
Definition findOverride (repoName : string)
    (overrides : list RepositoryOverride) : option RepositoryOverride :=
  List.find (fun repoOverride => String.eqb (name repoOverride) repoName)
    overrides.

(** [override?.path ? stripTrailingSlash(override.path) : ''] *)
Definition overridePath (override : option RepositoryOverride) : string :=
  match override with
  | Some o =>
      if Js.truthy (path o) then stripTrailingSlash H (path o) else ""
  | None => ""
  end.

Definition repositoryLabel (repoName : string) : string :=
  "Repository path for '" +:+ repoName +:+ "'".

(** The tail of the function, once [hostPath] is chosen. *)
Definition checkedHostPath (repoName hostPath : string)
    (envPaths : EnvironmentPaths) : Outcome string :=
  match ensureAccessibleHostPath H hostPath (repositoryLabel repoName)
          envPaths with
  | Some e => Throw e
  | None => Return (stripTrailingSlash H hostPath)
  end.

Definition resolveRepositoryHostPath (repoName : string) (config : Config)
    (envPaths : EnvironmentPaths) : Outcome string :=
  let override := findOverride repoName (userRepositories config) in
  let hostPath := overridePath override in
  if Js.truthy hostPath then
    if negb (Js.startsWith hostPath "/") then
      Throw (ValidationError (msgRepoPathMustBeAbsolute repoName hostPath))
    else checkedHostPath repoName hostPath envPaths
  else
    if negb (Js.truthy (currentRepoHostRoot envPaths)) then
      Throw (ConfigurationError (msgEnvNotSet "CURRENT_REPO_HOST_ROOT"))
    else
      match findBase repoName envPaths
              (map (stripTrailingSlash H) (candidateBases config envPaths))
      with
      | None => Throw (ValidationError (msgRepoPathNotProvided repoName))
      | Some hostPath => checkedHostPath repoName hostPath envPaths
      end.

(** *** The search as the specification words it

    The ordered candidate bases, three sub-paths under each, and the
    acceptance test of one sub-path; the search is the first accepted
    sub-path of the whole ordered list. *)
Definition subPaths (repoName base : string) : list string :=
  [ base +:+ "/plugins/" +:+ repoName; base +:+ "/" +:+ repoName; base ].

Definition reachableInContainer (envPaths : EnvironmentPaths)
    (p : string) : bool :=
  Js.truthy (toContainerPath H p envPaths)
  && existsSync H (toContainerPath H p envPaths).

Definition hasPackageManifest (envPaths : EnvironmentPaths)
    (p : string) : bool :=
  existsSync H (resolve H (toContainerPath H p envPaths) "package.json").

Definition accepted (envPaths : EnvironmentPaths) (p : string) : bool :=
  reachableInContainer envPaths p && hasPackageManifest envPaths p.

Definition orderedSubPaths (repoName : string) (config : Config)
    (envPaths : EnvironmentPaths) : list string :=
  flat_map (subPaths repoName)
    (List.filter Js.truthy
       (map (stripTrailingSlash H) (candidateBases config envPaths))).

Definition firstAccepted (repoName : string) (config : Config)
    (envPaths : EnvironmentPaths) : option string :=
  List.find (accepted envPaths) (orderedSubPaths repoName config envPaths).

(** The override lookup as the specification words it: the last-listed
    entry for the name, scanning the full list. *)
Definition lastOverride (repoName : string)
    (overrides : list RepositoryOverride) : option RepositoryOverride :=
  List.find (fun repoOverride => String.eqb (name repoOverride) repoName)
    (rev overrides).

End RepoResolver.

(** ** The argument parser *)

(** A small error monad for the straight-line part of the parser. *)
Definition bind {A B} (o : Outcome A) (k : A -> Outcome B) : Outcome B :=
  match o with
  | Return a => k a
  | Throw e => Throw e
  | Exit code => Exit code
  end.

Notation "x <- o ;; k" := (bind o (fun x => k))
  (at level 100, o at next level, right associativity).

(** A call that returns nothing or throws. *)
Definition check (r : option Error) : Outcome unit :=
  match r with
  | Some e => Throw e
  | None => Return tt
  end.

(** The [case] labels of the [switch (arg)], in source order. *)
Inductive FlagCase : Type :=
| CaseHelp
| CasePluginsRoot
| CaseOsVersion
| CaseOsdVersion
| CaseAgentsUp
| CaseSaml
| CaseServer
| CaseServerLocal
| CaseRepo
| CaseBase
| CaseIndexerLocal
| CaseDefault.

Section ArgumentParser.

Variable K : AppConstants.
Variable H : Host.

(** The flag spellings, in the order of the [case] labels. *)
Definition flagNames : list string :=
  [ FLAG_HELP K; FLAG_HELP_SHORT K; FLAG_PLUGINS_ROOT K;
    FLAG_PLUGINS_ROOT_WDP K; FLAG_PLUGINS_ROOT_WZ_HOME K; FLAG_OS_VERSION K;
    FLAG_OSD_VERSION K; FLAG_AGENTS_UP K; FLAG_SAML K; FLAG_SERVER K;
    FLAG_SERVER_LOCAL K; FLAG_REPO K; FLAG_BASE K; FLAG_INDEXER_LOCAL K ].

(** [printUsageAndExit]: the usage lines go to the logger, then
    [process.exit(1)]. *)
Definition printUsageAndExit {A} : Outcome A := Exit 1.

(** The [switch] selects the first label equal to [arg]. *)
Definition dispatch (arg : string) : FlagCase :=
  if String.eqb arg (FLAG_HELP K) then CaseHelp
  else if String.eqb arg (FLAG_HELP_SHORT K) then CaseHelp
  else if String.eqb arg (FLAG_PLUGINS_ROOT K) then CasePluginsRoot
  else if String.eqb arg (FLAG_PLUGINS_ROOT_WDP K) then CasePluginsRoot
  else if String.eqb arg (FLAG_PLUGINS_ROOT_WZ_HOME K) then CasePluginsRoot
  else if String.eqb arg (FLAG_OS_VERSION K) then CaseOsVersion
  else if String.eqb arg (FLAG_OSD_VERSION K) then CaseOsdVersion
  else if String.eqb arg (FLAG_AGENTS_UP K) then CaseAgentsUp
  else if String.eqb arg (FLAG_SAML K) then CaseSaml
  else if String.eqb arg (FLAG_SERVER K) then CaseServer
  else if String.eqb arg (FLAG_SERVER_LOCAL K) then CaseServerLocal
  else if String.eqb arg (FLAG_REPO K) then CaseRepo
  else if String.eqb arg (FLAG_BASE K) then CaseBase
  else if String.eqb arg (FLAG_INDEXER_LOCAL K) then CaseIndexerLocal
  else CaseDefault.

Definition serverRequiresVersion : Message :=
  msgText (FLAG_SERVER K +:+ " requires a version argument, e.g. "
           +:+ FLAG_SERVER K +:+ " 4.12.0").

Definition serverLocalRequiresVersion : Message :=
  msgText (FLAG_SERVER_LOCAL K
           +:+ " requires a version/tag argument, e.g. "
           +:+ FLAG_SERVER_LOCAL K +:+ " my-tag").

Definition invalidRepositorySpecification (repoSpec : string) : Message :=
  msgText ("Invalid repository specification '" +:+ repoSpec
           +:+ "'. Expected format repo=/absolute/path.").

(** The body of [case FLAGS.REPO], after [repoSpec = argv[++index]]
    ([index] is already the position of the value). *)
Definition repoCase (envPaths : EnvironmentPaths) (config : Config)
    (index : nat) (value : option string) : Outcome (Config * nat) :=
  match value with
  | None => Throw TypeError   (* [repoSpec.includes] on [undefined] *)
  | Some repoSpec =>
      if Js.includes repoSpec "=" then
        let parts := Js.split repoSpec "="%char in
        let repoName := nth 0 parts "" in
        let repoPath := nth 1 parts "" in
        if negb (Js.truthy repoName) || negb (Js.truthy repoPath) then
          Throw (ValidationError (invalidRepositorySpecification repoSpec))
        else if Js.includes repoPath "/plugins/" then
          Throw (ValidationError (msgInvalidRepoSubfolder repoName repoPath))
        else
          Return (addUserRepositoryOverride
                    {| name := repoName; path := repoPath |} config,
                  S index)
      else
        let repoName := repoSpec in
        let siblingFolderName :=
          if Js.has (SECURITY_PLUGIN_ALIASES K) repoName
          then SECURITY_PLUGIN_REPO_NAME K
          else repoName in
        if negb (Js.truthy (siblingRepoHostRoot envPaths)) then
          Throw (ValidationError
                   (msgCannotResolveRepositoryUnderCommonParent
                      repoName (FLAG_REPO K) "SIBLING_REPO_HOST_ROOT"))
        else
          let inferredHostPath :=
            stripTrailingSlash H
              (resolve H (siblingRepoHostRoot envPaths) siblingFolderName) in
          _ <- check (ensureAccessibleHostPath H inferredHostPath
                        (repositoryLabel repoName) envPaths) ;;
          Return (addUserRepositoryOverride
                    {| name := repoName; path := inferredHostPath |} config,
                  S index)
  end.

(** One iteration of the [while] loop: [arg = argv[index]] is given;
    the result is the environment the iteration leaves and either the
    configuration and index for the next iteration or the way the
    iteration ended the parse. *)
Definition scanStep (argv : list string) (envPaths : EnvironmentPaths)
    (config : Config) (index : nat) (env : ProcessEnv) (arg : string)
  : ProcessEnv * Outcome (Config * nat) :=
  match dispatch arg with
  | CaseHelp => (env, printUsageAndExit)
  | CasePluginsRoot =>
      let index := S index in
      match argv !! index with
      | Some path =>
          if negb (Js.truthy path) || negb (Js.startsWith path "/") then
            (env, Throw (ValidationError
                           (msgFlagRequiresAbsolutePath
                              (FLAG_PLUGINS_ROOT K))))
          else
            let config :=
              setPluginsRoot (stripTrailingSlash H path) config in
            (env,
             _ <- check (ensureAccessibleHostPath H (pluginsRoot config)
                           "Base path" envPaths) ;;
             Return (config, S index))
      | None =>
          (env, Throw (ValidationError
                         (msgFlagRequiresAbsolutePath
                            (FLAG_PLUGINS_ROOT K))))
      end
  | CaseOsVersion =>
      let index := S index in
      match argv !! index with
      | Some version =>
          if negb (Js.truthy version) || Js.startsWith version "-" then
            (env, Throw (ValidationError
                           (msgFlagRequiresValue (FLAG_OS_VERSION K) "2.11.0")))
          else (env, Return (setOsVersion version config, S index))
      | None =>
          (env, Throw (ValidationError
                         (msgFlagRequiresValue (FLAG_OS_VERSION K) "2.11.0")))
      end
  | CaseOsdVersion =>
      let index := S index in
      match argv !! index with
      | Some version =>
          if negb (Js.truthy version) || Js.startsWith version "-" then
            (env, Throw (ValidationError
                           (msgFlagRequiresValue (FLAG_OSD_VERSION K) "2.11.0")))
          else (env, Return (setOsdVersion version config, S index))
      | None =>
          (env, Throw (ValidationError
                         (msgFlagRequiresValue (FLAG_OSD_VERSION K) "2.11.0")))
      end
  | CaseAgentsUp =>
      let index := S index in
      match argv !! index with
      | Some val =>
          let val :=
            if String.eqb val "none" || String.eqb val "0"
            then "without" else val in
          let config := setAgentsUp val config in
          if negb (Js.has ["rpm"; "deb"; "without"; ""] (agentsUp config))
          then (env, Throw (ValidationError
                              (msgInvalidAgentsUp (FLAG_AGENTS_UP K))))
          else (env, Return (config, S index))
      | None =>
          (* the setter stores [undefined], which the list does not hold *)
          (env, Throw (ValidationError
                         (msgInvalidAgentsUp (FLAG_AGENTS_UP K))))
      end
  | CaseSaml => (env, Return (setEnableSaml true config, S index))
  | CaseServer =>
      let index := S index in
      match argv !! index with
      | Some version =>
          if negb (Js.truthy version) || Js.startsWith version "-" then
            (env, Throw (ValidationError serverRequiresVersion))
          else (env, Return (setServerFlagVersion version config, S index))
      | None => (env, Throw (ValidationError serverRequiresVersion))
      end
  | CaseServerLocal =>
      let index := S index in
      match argv !! index with
      | Some version =>
          if negb (Js.truthy version) || Js.startsWith version "-" then
            (env, Throw (ValidationError serverLocalRequiresVersion))
          else
            (env, Return (setServerLocalFlagVersion version config, S index))
      | None => (env, Throw (ValidationError serverLocalRequiresVersion))
      end
  | CaseRepo =>
      let index := S index in
      (env, repoCase envPaths config index (argv !! index))
  | CaseBase =>
      let config := setUseDashboardFromSource true config in
      let nextArg := argv !! (index + 1) in
      match nextArg with
      | Some next =>
          if Js.truthy next && Js.startsWith next "/" then
            let basePath := stripTrailingSlash H next in
            (env,
             _ <- check (ensureAccessibleHostPath H basePath
                           "Dashboard base path" envPaths) ;;
             Return (setDashboardBase basePath config, index + 2))
          else if Js.truthy next && negb (Js.startsWith next "-")
                  && negb (Js.has (ACTIONS K) next) then
            (env, Return (config, index + 2))
          else (env, Return (config, index + 1))
      | None => (env, Return (config, index + 1))
      end
  | CaseIndexerLocal =>
      let config := setUseIndexerFromPackage true config in
      let nextArg := argv !! (index + 1) in
      match nextArg with
      | Some next =>
          if Js.truthy next then
            (<["IMAGE_INDEXER_PACKAGE_TAG" := next]> env,
             Return (config, index + 2))
          else if Js.truthy next && negb (Js.startsWith next "-")
                  && negb (Js.has (ACTIONS K) next) then
            (env, Return (config, index + 2))
          else (env, Return (config, index + 1))
      | None => (env, Return (config, index + 1))
      end
  | CaseDefault =>
      if Js.startsWith arg "-" then
        (env, Throw (ValidationError (msgUnsupportedOption arg)))
      else if Js.has (ACTIONS K) arg then
        if Js.truthy (action config) then
          (env, Throw (ValidationError
                         (msgActionProvidedMultiple (action config) arg)))
        else (env, Return (setAction arg config, S index))
      else
        (env, Throw (ValidationError (msgPositionalArgsNotAllowed arg)))
  end.

(** [while (index < argv.length)]: the loop ends when [argv[index]] is
    past the end.  [fuel] bounds the iterations; [None] is fuel run
    out, which [length argv] iterations never reach. *)
Fixpoint scanLoop (fuel : nat) (argv : list string)
    (envPaths : EnvironmentPaths) (config : Config) (index : nat)
    (env : ProcessEnv) : option (ProcessEnv * Outcome Config) :=
  match argv !! index with
  | None => Some (env, Return config)
  | Some arg =>
      match fuel with
      | O => None
      | S fuel' =>
          match scanStep argv envPaths config index env arg with
          | (env', Return (config', index')) =>
              scanLoop fuel' argv envPaths config' index' env'
          | (env', Throw e) => Some (env', Throw e)
          | (env', Exit code) => Some (env', Exit code)
          end
      end
  end.

(** "Resolve dashboard base if requested and not provided". *)
Definition inferDashboardBase (envPaths : EnvironmentPaths)
    (config : Config) : Outcome Config :=
  if useDashboardFromSource config && negb (Js.truthy (dashboardBase config))
  then
    let hostRoot := siblingRepoHostRoot envPaths in
    if negb (Js.truthy hostRoot) then
      Throw (ConfigurationError msgCannotInferDashboardBase)
    else
      let candidate :=
        stripTrailingSlash H (resolve H hostRoot "wazuh-dashboard") in
      let containerCandidate := toContainerPath H candidate envPaths in
      if negb (Js.truthy containerCandidate) then
        Throw (ValidationError msgUnableLocateWazuhDashboardAuto)
      else Return (setDashboardBase candidate config)
  else Return config.

Definition checkDashboardBase (envPaths : EnvironmentPaths)
    (config : Config) : Outcome Config :=
  if useDashboardFromSource config then
    if negb (Js.truthy (dashboardBase config))
       || negb (Js.startsWith (dashboardBase config) "/") then
      Throw (ValidationError msgBaseRequiresAbsolute)
    else
      _ <- check (ensureAccessibleHostPath H (dashboardBase config)
                    "Dashboard base path" envPaths) ;;
      Return config
  else Return config.

Definition defaultPluginsRoot (envPaths : EnvironmentPaths)
    (config : Config) : Config :=
  if negb (Js.truthy (pluginsRoot config))
     && Js.truthy (currentRepoHostRoot envPaths)
  then setPluginsRoot
         (stripTrailingSlash H
            (resolve H (currentRepoHostRoot envPaths) "plugins"))
         config
  else config.

Definition checkPluginsRoot (envPaths : EnvironmentPaths)
    (config : Config) : Outcome Config :=
  if Js.truthy (pluginsRoot config) then
    _ <- check (ensureAccessibleHostPath H (pluginsRoot config)
                  "Base path" envPaths) ;;
    Return config
  else Return config.

(** "Map new-style flags to mode/modeVersion". *)
Definition mapModeFlags (config : Config) : Outcome Config :=
  if Js.truthy (serverFlagVersion config)
     && Js.truthy (serverLocalFlagVersion config) then
    Throw (ValidationError msgCannotCombineServerFlags)
  else if Js.truthy (serverFlagVersion config) then
    Return (setModeVersion (serverFlagVersion config)
              (setMode PROFILES.SERVER config))
  else if Js.truthy (serverLocalFlagVersion config) then
    Return (setModeVersion (serverLocalFlagVersion config)
              (setMode PROFILES.SERVER_LOCAL config))
  else if enableSaml config && negb (Js.truthy (mode config)) then
    Return (setMode PROFILES.SAML config)
  else Return config.

(** The statements between the loop and the mode mapping. *)
Definition postScanChecks (envPaths : EnvironmentPaths) (config : Config)
  : Outcome Config :=
  config <- inferDashboardBase envPaths config ;;
  config <- checkDashboardBase envPaths config ;;
  checkPluginsRoot envPaths (defaultPluginsRoot envPaths config).

(** Everything after the loop. *)
Definition finishParse (envPaths : EnvironmentPaths) (config : Config)
  : Outcome Config :=
  config <- postScanChecks envPaths config ;;
  mapModeFlags config.

Definition parseArguments (argv : list string)
    (envPaths : EnvironmentPaths) (env : ProcessEnv)
  : option (ProcessEnv * Outcome Config) :=
  match scanLoop (length argv) argv envPaths newConfig 0 env with
  | Some (env', Return config) => Some (env', finishParse envPaths config)
  | Some (env', Throw e) => Some (env', Throw e)
  | Some (env', Exit code) => Some (env', Exit code)
  | None => None
  end.

(** The message each required-value case throws for a missing value. *)
Definition valueMessage (c : FlagCase) : Message :=
  match c with
  | CasePluginsRoot => msgFlagRequiresAbsolutePath (FLAG_PLUGINS_ROOT K)
  | CaseOsVersion => msgFlagRequiresValue (FLAG_OS_VERSION K) "2.11.0"
  | CaseOsdVersion => msgFlagRequiresValue (FLAG_OSD_VERSION K) "2.11.0"
  | CaseAgentsUp => msgInvalidAgentsUp (FLAG_AGENTS_UP K)
  | CaseServer => serverRequiresVersion
  | CaseServerLocal => serverLocalRequiresVersion
  | _ => msgText ""
  end.

End ArgumentParser.

(** [flag] is supplied with a value in [argv]: some token is the flag
    and the token after it is non-empty and has no leading dash. *)
Definition suppliedWithValue (flag : string) (argv : list string) : Prop :=
  exists i value,
    argv !! i = Some flag /\ argv !! S i = Some value
    /\ value <> "" /\ Js.startsWith value "-" = false.

(** ** A sample installation *)

Module Sample.

(** Modelled from the spec: the tables of [constants/app] are not
    among the sources.  The flag spellings are the ones the spec and
    the usage text give ([--server], [--server-local], [--repo],
    [--base], [--indexer-local], [--saml], [-h]/[--help], action
    [up], alias [security]); the other entries are sample values of
    the same shape. *)
Definition constants : AppConstants :=
  {| FLAG_HELP := "--help";
     FLAG_HELP_SHORT := "-h";
     FLAG_PLUGINS_ROOT := "--plugins-root";
     FLAG_PLUGINS_ROOT_WDP := "-wdp";
     FLAG_PLUGINS_ROOT_WZ_HOME := "--wz-home";
     FLAG_OS_VERSION := "-os";
     FLAG_OSD_VERSION := "-osd";
     FLAG_AGENTS_UP := "-a";
     FLAG_SAML := "--saml";
     FLAG_SERVER := "--server";
     FLAG_SERVER_LOCAL := "--server-local";
     FLAG_REPO := "--repo";
     FLAG_BASE := "--base";
     FLAG_INDEXER_LOCAL := "--indexer-local";
     ACTIONS := ["up"; "down"; "stop"; "start"];
     SECURITY_PLUGIN_ALIASES := ["security"; "wazuh-security"];
     SECURITY_PLUGIN_REPO_NAME := "wazuh-security-dashboards-plugin";
     OSD_MAJOR_2X := "2.x";
     SECURITY_CONFIG_PATH_2X :=
       "/usr/share/opensearch/config/opensearch-security" |}.

(** Modelled from the spec: [stripTrailingSlash] of [utils/pathUtils]
    is not among the sources; this one drops every trailing slash. *)
Fixpoint stripSlashes (s : string) : string :=
  match s with
  | EmptyString => EmptyString
  | String a s' =>
      match stripSlashes s' with
      | EmptyString =>
          if Ascii.eqb a "/"%char then EmptyString
          else String a EmptyString
      | r => String a r
      end
  end.

(** A host whose existing paths are [files], mounted in the container
    under the same absolute paths; [path.resolve] on an absolute
    directory and a plain segment joins them. *)
Definition host (files : list string) : Host :=
  {| stripTrailingSlash := stripSlashes;
     toContainerPath := fun p _ => if Js.startsWith p "/" then p else "";
     ensureAccessibleHostPath := fun p label _ =>
       if Js.startsWith p "/" && Js.has files p then None
       else Some (ValidationError
                    (msgText (label +:+ " is not accessible")));
     resolve := fun dir segment => dir +:+ "/" +:+ segment;
     existsSync := Js.has files |}.

Definition noPaths : EnvironmentPaths :=
  {| currentRepoHostRoot := ""; siblingRepoHostRoot := "";
     packageJsonPath := "" |}.

Definition devPaths : EnvironmentPaths :=
  {| currentRepoHostRoot := "/dev/wazuh-dashboard-plugins";
     siblingRepoHostRoot := "/dev";
     packageJsonPath := "/dev/wazuh-dashboard-plugins/package.json" |}.

Definition noSiblingPaths : EnvironmentPaths :=
  {| currentRepoHostRoot := "/dev/wazuh-dashboard-plugins";
     siblingRepoHostRoot := "";
     packageJsonPath := "/dev/wazuh-dashboard-plugins/package.json" |}.

Definition devFiles : list string :=
  [ "/dev"; "/dev/wazuh-dashboard-plugins";
    "/dev/wazuh-dashboard-plugins/plugins";
    "/dev/wazuh-dashboard-plugins/plugins/main";
    "/dev/wazuh-dashboard-plugins/plugins/main/package.json";
    "/dev/wazuh-security-dashboards-plugin";
    "/dev/wazuh-security-dashboards-plugin/package.json";
    "/dev/wazuh-dashboard";
    "/abs/one"; "/abs/two" ].

Definition serverConfig (version : string) : Config :=
  setModeVersion version (setMode PROFILES.SERVER newConfig).

Definition serverLocalConfig (tag agents : string) : Config :=
  setAgentsUp agents
    (setModeVersion tag (setMode PROFILES.SERVER_LOCAL newConfig)).

(** Two overrides for the same repository name. *)
Definition twoOverrides : Config :=
  addUserRepositoryOverride {| name := "main"; path := "/abs/two" |}
    (addUserRepositoryOverride {| name := "main"; path := "/abs/one" |}
       newConfig).

End Sample.

(** ** The rest of repoResolver.ts *)

Section RequiredRepositories.

Variable H : Host.

(** [toRepositoryEnvVar] of [utils/envUtils] is not among the sources:
    the variable name of a repository is a function of its name. *)
Variable toRepositoryEnvVar : string -> string.

(** The [for (const repo of requiredRepositories)] loop, with the map
    it fills. *)
Fixpoint resolveRequiredLoop (requiredRepositories : list string)
    (config : Config) (envPaths : EnvironmentPaths)
    (envMap : gmap string string) : Outcome (gmap string string) :=
  match requiredRepositories with
  | [] => Return envMap
  | repo :: rest =>
      path <- resolveRepositoryHostPath H repo config envPaths ;;
      let varName := toRepositoryEnvVar repo in
      resolveRequiredLoop rest config envPaths (<[varName := path]> envMap)
  end.

Definition resolveRequiredRepositories (requiredRepositories : list string)
    (config : Config) (envPaths : EnvironmentPaths)
  : Outcome (gmap string string) :=
  resolveRequiredLoop requiredRepositories config envPaths ∅.

End RequiredRepositories.

(** ** The rest of environmentConfigurator.ts *)

(** [DEFAULTS] of [constants/app], as far as [initializeBaseEnvironment]
    reads it. *)
Record Defaults : Type := {
  defaultPassword : string;
  osdPort : string;
  imposterVersion : string
}.

(** [process.env.X || fallback]: an unset or empty variable gives the
    fallback. *)
Definition envOr (value : option string) (fallback : string) : string :=
  match value with
  | Some v => if Js.truthy v then v else fallback
  | None => fallback
  end.

Definition initializeBaseEnvironment (D : Defaults) (config : Config)
    (env : ProcessEnv) : ProcessEnv :=
  let env :=
    <["PASSWORD" := envOr (env !! "PASSWORD") (defaultPassword D)]> env in
  let env := <["OS_VERSION" := osVersion config]> env in
  let env := <["OSD_VERSION" := osdVersion config]> env in
  let env := <["OSD_PORT" := envOr (env !! "PORT") (osdPort D)]> env in
  let env := <["IMPOSTER_VERSION" := imposterVersion D]> env in
  <["SRC" := if Js.truthy (pluginsRoot config) then pluginsRoot config
             else ""]> env.

(** The two runtime services [setVersionDerivedEnvironment] leans on,
    as functions of their input: [parseInt(text, 10).toString()] (the
    number, or [NaN], printed back), and the [version] field of the
    manifest at a path as it lands in the environment
    ([JSON.parse(readFileSync(path, 'utf-8')).version]); [None] is a
    read or parse that throws. *)
Record Runtime : Type := {
  parseIntText : string -> string;
  manifestVersion : string -> option string
}.

(** [text.replace(/\./g, '')] *)
Fixpoint removeDots (text : string) : string :=
  match text with
  | EmptyString => EmptyString
  | String a rest =>
      if Ascii.eqb a "."%char then removeDots rest
      else String a (removeDots rest)
  end.

(** The result is the environment left and whether the call completed
    ([false]: the manifest read threw, after the first three
    variables were written). *)
Definition setVersionDerivedEnvironment (K : AppConstants) (H : Host)
    (R : Runtime) (osdVersion : string) (envPaths : EnvironmentPaths)
    (env : ProcessEnv) : ProcessEnv * bool :=
  let osdMajorNumber :=
    parseIntText R (nth 0 (Js.split osdVersion "."%char) "") in
  let env := <["OSD_MAJOR_NUMBER" := osdMajorNumber]> env in
  let env :=
    <["COMPOSE_PROJECT_NAME" := "os-dev-" +:+ removeDots osdVersion]> env in
  let env := <["WAZUH_STACK" := envOr (env !! "WAZUH_STACK") ""]> env in
  if existsSync H (packageJsonPath envPaths) then
    match manifestVersion R (packageJsonPath envPaths) with
    | None => (env, false)
    | Some version =>
        (<["OSD_MAJOR" := OSD_MAJOR_2X K]>
           (<["WAZUH_VERSION_DEVELOPMENT" := version]> env), true)
    end
  else (<["OSD_MAJOR" := OSD_MAJOR_2X K]> env, true).

(** The profile strings [configureModeAndSecurity] can return after a
    parse. *)
Definition parsedProfiles : list string :=
  [ PROFILES.STANDARD; PROFILES.SAML; PROFILES.SERVER; PROFILES.SERVER_LOCAL;
    PROFILES.SERVER_LOCAL +:+ "-rpm"; PROFILES.SERVER_LOCAL +:+ "-deb";
    PROFILES.SERVER_LOCAL +:+ "-without" ].

(** ** Flag positions

    The positions of [argv] the loop reads as [arg]: it starts at 0 and
    each iteration that continues moves past the tokens its case takes
    (the index arithmetic of the cases), so a token taken as the value
    of a flag is no position of its own. *)
Section FlagPositions.

Variable K : AppConstants.

(** The tokens an iteration on [arg] at [index] takes when it
    continues: the flag alone, or the flag and the token after it. *)
Definition tokensTaken (argv : list string) (index : nat) (arg : string)
  : nat :=
  match dispatch K arg with
  | CaseHelp | CaseSaml | CaseDefault => 1
  | CasePluginsRoot | CaseOsVersion | CaseOsdVersion | CaseAgentsUp
  | CaseServer | CaseServerLocal | CaseRepo => 2
  | CaseBase =>
      match argv !! (index + 1) with
      | Some next =>
          if Js.truthy next && Js.startsWith next "/" then 2
          else if Js.truthy next && negb (Js.startsWith next "-")
                  && negb (Js.has (ACTIONS K) next) then 2
          else 1
      | None => 1
      end
  | CaseIndexerLocal =>
      match argv !! (index + 1) with
      | Some next =>
          if Js.truthy next then 2
          else if Js.truthy next && negb (Js.startsWith next "-")
                  && negb (Js.has (ACTIONS K) next) then 2
          else 1
      | None => 1
      end
  end.

Fixpoint flagPositions (fuel : nat) (argv : list string) (index : nat)
  : list nat :=
  match fuel with
  | O => []
  | S fuel' =>
      match argv !! index with
      | None => []
      | Some arg =>
          index
          :: flagPositions fuel' argv (index + tokensTaken argv index arg)
      end
  end.

(** [flag] is read as a flag at position [i] of [argv], with [value] as
    the token after it. *)
Definition readAsFlag (argv : list string) (i : nat) (flag value : string)
  : Prop :=
  In i (flagPositions (length argv) argv 0)
  /\ argv !! i = Some flag /\ argv !! S i = Some value.

(** [flag] is supplied with a value: read as a flag, with a non-empty
    value that has no leading dash. *)
Definition suppliedAsFlag (argv : list string) (flag : string) : Prop :=
  exists i value,
    readAsFlag argv i flag value
    /\ value <> "" /\ Js.startsWith value "-" = false.

End FlagPositions.

(** Sample values for the functions above. *)
Module SampleEnv.

Definition defaults : Defaults :=
  {| defaultPassword := "admin"; osdPort := "5601";
     imposterVersion := "3.44.1" |}.

(** A variable name in the style of an environment variable. *)
Definition repositoryVar (repo : string) : string := "REPO_" +:+ repo.

Definition presetEnv : ProcessEnv :=
  <["PASSWORD" := "secret"]> (<["PORT" := "5602"]> ∅).


(** A runtime that reads the major number of plain versions and finds
    version 5.0.0 in every manifest. *)
Definition runtime : Runtime :=
  {| parseIntText := fun text => text;
     manifestVersion := fun _ => Some "5.0.0" |}.

(** The configuration a parse returns on the sample installation (an
    empty one when the parse does not return). *)
Definition parsed (argv : list string) : Config :=
  match parseArguments Sample.constants (Sample.host Sample.devFiles) argv
          Sample.devPaths ∅ with
  | Some (_, Return config) => config
  | _ => newConfig
  end.

End SampleEnv.

(** * Properties *)

(** Case analysis on every [match] and [if] of the goal and the
    hypotheses. *)
Ltac split_tests :=
  repeat match goal with
         | |- context [match ?x with _ => _ end] => destruct x eqn:?
         | H : context [match ?x with _ => _ end] |- _ => destruct x eqn:?
         end.

(** ** Strings *)

Lemma truthy_true s : Js.truthy s = true <-> s <> "".
Proof.
  unfold Js.truthy. destruct (String.eqb_spec s ""); simpl; split; congruence.
Qed.

Lemma truthy_false s : Js.truthy s = false <-> s = "".
Proof.
  unfold Js.truthy. destruct (String.eqb_spec s ""); simpl; split; congruence.
Qed.

Lemma startsWith_app s t : Js.startsWith (s +:+ t) s = true.
Proof.
  unfold Js.startsWith. induction s as [|a s IH]; simpl.
  - now destruct t.
  - destruct (ascii_dec a a); [exact IH | congruence].
Qed.

Lemma has_In l x : Js.has l x = true <-> In x l.
Proof.
  unfold Js.has. rewrite existsb_exists. split.
  - intros (y & Hy & E). apply String.eqb_eq in E. now subst.
  - intros Hx. exists x. split; [assumption | apply String.eqb_refl].
Qed.

Lemma append_inj_l (p s t : string) : p +:+ s = p +:+ t -> s = t.
Proof.
  induction p as [|a p IH]; simpl; intros E; [exact E|].
  injection E as E. auto.
Qed.

(** ** environmentConfigurator *)

Section EnvironmentConfiguratorFacts.

Variable K : AppConstants.

(** The SAML variants are other files than the standard ones. *)
Lemma saml_variants_differ :
  dashboardConfSaml K <> dashboardConf K
  /\ securityConfSaml K <> securityConf K.
Proof.
  unfold dashboardConfSaml, dashboardConf, securityConfSaml, securityConf.
  split; intros E; apply append_inj_l in E; apply append_inj_l in E;
    discriminate E.
Qed.

Lemma configure_server config env :
  mode config = PROFILES.SERVER ->
  configureModeAndSecurity K config env =
    if Js.truthy (modeVersion config)
    then (<["WAZUH_STACK" := modeVersion config]>
            (afterFileSelection K config env), Return PROFILES.SERVER)
    else (afterFileSelection K config env,
          Throw (ValidationError MSG_SERVER_MODE_REQUIRES_VERSION)).
Proof.
  intros Hm. unfold configureModeAndSecurity, afterFileSelection.
  rewrite Hm.
  change (isCompositeServerLocal PROFILES.SERVER) with false.
  change (String.eqb PROFILES.SERVER PROFILES.SERVER) with true.
  cbv iota. destruct (Js.truthy (modeVersion config)); reflexivity.
Qed.

Lemma configure_server_local config env :
  mode config = PROFILES.SERVER_LOCAL ->
  configureModeAndSecurity K config env =
    if Js.truthy (modeVersion config)
    then (<["IMAGE_TAG" := modeVersion config]>
            (afterFileSelection K config env),
          Return (if Js.truthy (agentsUp config)
                  then PROFILES.SERVER_LOCAL +:+ "-" +:+ agentsUp config
                  else PROFILES.SERVER_LOCAL))
    else (afterFileSelection K config env,
          Throw (ValidationError MSG_SERVER_LOCAL_MODE_REQUIRES_VERSION)).
Proof.
  intros Hm. unfold configureModeAndSecurity, afterFileSelection.
  rewrite Hm.
  change (isCompositeServerLocal PROFILES.SERVER_LOCAL) with false.
  change (String.eqb PROFILES.SERVER_LOCAL PROFILES.SERVER) with false.
  change (String.eqb PROFILES.SERVER_LOCAL PROFILES.SERVER_LOCAL) with true.
  cbv iota. destruct (Js.truthy (modeVersion config)); reflexivity.
Qed.

Lemma configure_composite config env :
  isCompositeServerLocal (mode config) = true ->
  configureModeAndSecurity K config env =
    (afterFileSelection K config env,
     Throw (ValidationError msgUnsupportedModeToken)).
Proof.
  intros Hm. unfold configureModeAndSecurity, afterFileSelection.
  rewrite Hm. reflexivity.
Qed.

Lemma afterFileSelection_other config env k :
  k <> "WAZUH_DASHBOARD_CONF" -> k <> "SEC_CONFIG_FILE" ->
  k <> "SEC_CONFIG_PATH" ->
  afterFileSelection K config env !! k = env !! k.
Proof.
  intros H1 H2 H3. unfold afterFileSelection.
  destruct (enableSaml config || String.eqb (mode config) PROFILES.SAML);
    repeat (rewrite lookup_insert_ne by congruence); reflexivity.
Qed.

Lemma afterFileSelection_saml config env :
  enableSaml config = true ->
  afterFileSelection K config env !! "WAZUH_DASHBOARD_CONF"
    = Some (dashboardConfSaml K)
  /\ afterFileSelection K config env !! "SEC_CONFIG_FILE"
    = Some (securityConfSaml K).
Proof.
  intros Hs. unfold afterFileSelection. rewrite Hs. simpl orb. cbv iota.
  split.
  - rewrite lookup_insert_ne by discriminate. apply lookup_insert_eq.
  - apply lookup_insert_eq.
Qed.

End EnvironmentConfiguratorFacts.

(** C4. [configureModeAndSecurity] on [mode = "server"]: with a
    non-empty [modeVersion] it returns the server profile and the
    environment it leaves has [WAZUH_STACK] set to that version; with an
    empty [modeVersion] it throws a [ValidationError] (and leaves
    [WAZUH_STACK] as it was). *)
Theorem configureModeAndSecurity_server
    (K : AppConstants) (config : Config) (env : ProcessEnv) :
  mode config = "server" ->
  (modeVersion config <> "" ->
   exists env',
     configureModeAndSecurity K config env = (env', Return PROFILES.SERVER)
     /\ env' !! "WAZUH_STACK" = Some (modeVersion config))
  /\ (modeVersion config = "" ->
      exists env',
        configureModeAndSecurity K config env =
          (env', Throw (ValidationError MSG_SERVER_MODE_REQUIRES_VERSION))
        /\ env' !! "WAZUH_STACK" = env !! "WAZUH_STACK").
Proof.
  intros Hm. rewrite (configure_server K config env Hm). split; intros Hv.
  - apply truthy_true in Hv. rewrite Hv. eexists. split; [reflexivity|].
    apply lookup_insert_eq.
  - apply truthy_false in Hv. rewrite Hv. eexists. split; [reflexivity|].
    apply afterFileSelection_other; discriminate.
Qed.

Lemma configureModeAndSecurity_server_witness :
  (exists env',
      configureModeAndSecurity Sample.constants
        (Sample.serverConfig "4.12.0") ∅ = (env', Return "server")
      /\ env' !! "WAZUH_STACK" = Some "4.12.0")
  /\ (exists env',
        configureModeAndSecurity Sample.constants
          (Sample.serverConfig "") ∅ =
          (env', Throw (ValidationError MSG_SERVER_MODE_REQUIRES_VERSION))
        /\ env' !! "WAZUH_STACK" = None).
Proof.
  split.
  - apply (proj1 (configureModeAndSecurity_server Sample.constants
                    (Sample.serverConfig "4.12.0") ∅ eq_refl)).
    discriminate.
  - destruct (proj2 (configureModeAndSecurity_server Sample.constants
                       (Sample.serverConfig "") ∅ eq_refl) eq_refl)
      as (env' & Hr & He).
    exists env'. split; [exact Hr | exact He].
Defined.

(** C5. [configureModeAndSecurity] throws a [ValidationError] for every
    mode of the form "server-local-<suffix>"; for [mode =
    "server-local"] it throws a [ValidationError] when [modeVersion] is
    empty, and otherwise sets [IMAGE_TAG] to [modeVersion] and returns
    "server-local-<agentsUp>" when [agentsUp] is set, "server-local"
    when it is not. *)
Theorem configureModeAndSecurity_server_local
    (K : AppConstants) (config : Config) (env : ProcessEnv) :
  (forall suffix, mode config = "server-local-" +:+ suffix ->
     exists env',
       configureModeAndSecurity K config env =
         (env', Throw (ValidationError msgUnsupportedModeToken)))
  /\ (mode config = "server-local" -> modeVersion config = "" ->
      exists env',
        configureModeAndSecurity K config env =
          (env',
           Throw (ValidationError MSG_SERVER_LOCAL_MODE_REQUIRES_VERSION)))
  /\ (mode config = "server-local" -> modeVersion config <> "" ->
      exists env',
        env' !! "IMAGE_TAG" = Some (modeVersion config)
        /\ (agentsUp config <> "" ->
            configureModeAndSecurity K config env =
              (env', Return ("server-local-" +:+ agentsUp config)))
        /\ (agentsUp config = "" ->
            configureModeAndSecurity K config env =
              (env', Return "server-local"))).
Proof.
  repeat split.
  - intros suffix Hm. eexists. apply configure_composite.
    rewrite Hm. apply (startsWith_app "server-local-" suffix).
  - intros Hm Hv. rewrite (configure_server_local K config env Hm).
    apply truthy_false in Hv. rewrite Hv. eexists. reflexivity.
  - intros Hm Hv. rewrite (configure_server_local K config env Hm).
    apply truthy_true in Hv. rewrite Hv. eexists. split; [|split].
    + apply lookup_insert_eq.
    + intros Ha. apply truthy_true in Ha. rewrite Ha. reflexivity.
    + intros Ha. apply truthy_false in Ha. rewrite Ha. reflexivity.
Qed.

Lemma configureModeAndSecurity_server_local_witness :
  (exists env',
      configureModeAndSecurity Sample.constants
        (setMode "server-local-rpm" newConfig) ∅ =
        (env', Throw (ValidationError msgUnsupportedModeToken)))
  /\ (exists env',
        configureModeAndSecurity Sample.constants
          (Sample.serverLocalConfig "" "rpm") ∅ =
          (env',
           Throw (ValidationError MSG_SERVER_LOCAL_MODE_REQUIRES_VERSION)))
  /\ (exists env',
        env' !! "IMAGE_TAG" = Some "my-tag"
        /\ configureModeAndSecurity Sample.constants
             (Sample.serverLocalConfig "my-tag" "rpm") ∅ =
             (env', Return "server-local-rpm"))
  /\ (exists env',
        env' !! "IMAGE_TAG" = Some "my-tag"
        /\ configureModeAndSecurity Sample.constants
             (Sample.serverLocalConfig "my-tag" "") ∅ =
             (env', Return "server-local")).
Proof.
  repeat split.
  - apply (proj1 (configureModeAndSecurity_server_local Sample.constants
                    (setMode "server-local-rpm" newConfig) ∅) "rpm").
    reflexivity.
  - apply (proj1 (proj2 (configureModeAndSecurity_server_local
                           Sample.constants
                           (Sample.serverLocalConfig "" "rpm") ∅)));
      reflexivity.
  - destruct (proj2 (proj2 (configureModeAndSecurity_server_local
                              Sample.constants
                              (Sample.serverLocalConfig "my-tag" "rpm") ∅))
                eq_refl ltac:(discriminate)) as (env' & Ht & Ha & _).
    exists env'. split; [exact Ht|]. apply Ha. discriminate.
  - destruct (proj2 (proj2 (configureModeAndSecurity_server_local
                              Sample.constants
                              (Sample.serverLocalConfig "my-tag" "") ∅))
                eq_refl ltac:(discriminate)) as (env' & Ht & _ & Ha).
    exists env'. split; [exact Ht|]. apply Ha. reflexivity.
Defined.

(** C10. With [enableSaml] true and [mode = "server"] (non-empty
    [modeVersion]), [configureModeAndSecurity] returns the server
    profile while [WAZUH_DASHBOARD_CONF] and [SEC_CONFIG_FILE] hold the
    SAML variants; and whatever the mode, and whether the call returns
    or throws, [enableSaml] leaves the two variables on the SAML
    variants, which are other files than the standard ones. *)
Theorem configureModeAndSecurity_saml_with_server
    (K : AppConstants) (config : Config) (env : ProcessEnv) :
  enableSaml config = true ->
  (mode config = "server" -> modeVersion config <> "" ->
   snd (configureModeAndSecurity K config env) = Return "server")
  /\ fst (configureModeAndSecurity K config env) !! "WAZUH_DASHBOARD_CONF"
     = Some (dashboardConfSaml K)
  /\ fst (configureModeAndSecurity K config env) !! "SEC_CONFIG_FILE"
     = Some (securityConfSaml K)
  /\ dashboardConfSaml K <> dashboardConf K
  /\ securityConfSaml K <> securityConf K.
Proof.
  intros Hs.
  destruct (afterFileSelection_saml K config env Hs) as [Hd Hc].
  split; [|split; [|split; [|apply saml_variants_differ]]].
  - intros Hm Hv. rewrite (configure_server K config env Hm).
    apply truthy_true in Hv. rewrite Hv. reflexivity.
  - unfold configureModeAndSecurity. fold (afterFileSelection K config env).
    repeat match goal with
           | |- context [if ?b then _ else _] => destruct b
           end; simpl fst;
      try (rewrite lookup_insert_ne by discriminate); exact Hd.
  - unfold configureModeAndSecurity. fold (afterFileSelection K config env).
    repeat match goal with
           | |- context [if ?b then _ else _] => destruct b
           end; simpl fst;
      try (rewrite lookup_insert_ne by discriminate); exact Hc.
Qed.

Lemma configureModeAndSecurity_saml_with_server_witness :
  snd (configureModeAndSecurity Sample.constants
         (setEnableSaml true (Sample.serverConfig "4.12.0")) ∅)
    = Return "server"
  /\ fst (configureModeAndSecurity Sample.constants
            (setEnableSaml true (Sample.serverConfig "4.12.0")) ∅)
       !! "WAZUH_DASHBOARD_CONF"
     = Some "./config/2.x/osd/opensearch_dashboards_saml.yml"
  /\ fst (configureModeAndSecurity Sample.constants
            (setEnableSaml true (Sample.serverConfig "4.12.0")) ∅)
       !! "SEC_CONFIG_FILE"
     = Some "./config/2.x/os/config-saml.yml".
Proof.
  destruct (configureModeAndSecurity_saml_with_server Sample.constants
              (setEnableSaml true (Sample.serverConfig "4.12.0")) ∅ eq_refl)
    as (Hr & Hd & Hc & _).
  split; [apply Hr; [reflexivity | discriminate] | split; assumption].
Defined.

(** ** repoResolver *)

Section RepoResolverFacts.

Variable H : Host.

Lemma find_append {A} (f : A -> bool) (l1 l2 : list A) :
  List.find f (l1 ++ l2) =
    match List.find f l1 with
    | Some x => Some x
    | None => List.find f l2
    end.
Proof.
  induction l1 as [|a l1 IH]; simpl; [reflexivity|].
  destruct (f a); [reflexivity | exact IH].
Qed.

Lemma find_first {A} (f : A -> bool) (before after : list A) (x : A) :
  (forall y, In y before -> f y = false) -> f x = true ->
  List.find f (before ++ x :: after) = Some x.
Proof.
  intros Hb Hx. rewrite find_append.
  replace (List.find f before) with (@None A).
  - simpl. now rewrite Hx.
  - symmetry. induction before as [|a l IH]; simpl; [reflexivity|].
    rewrite (Hb a (or_introl eq_refl)). apply IH.
    intros y Hy. apply Hb. now right.
Qed.

Lemma find_none_iff {A} (f : A -> bool) (l : list A) :
  List.find f l = None <-> forall y, In y l -> f y = false.
Proof.
  split; [apply find_none|].
  induction l as [|a l IH]; simpl; intros Hl; [reflexivity|].
  rewrite (Hl a (or_introl eq_refl)). apply IH. intros y Hy. apply Hl.
  now right.
Qed.

(** The candidate loop returns the first accepted candidate. *)
Lemma probeCandidates_find envPaths candidates :
  probeCandidates H envPaths candidates
  = List.find (accepted H envPaths) candidates.
Proof.
  induction candidates as [|c rest IH]; simpl; [reflexivity|].
  unfold accepted, reachableInContainer, hasPackageManifest.
  destruct (Js.truthy (toContainerPath H c envPaths)
            && existsSync H (toContainerPath H c envPaths)); simpl.
  - destruct (existsSync H
                (resolve H (toContainerPath H c envPaths) "package.json"));
      simpl; [reflexivity | exact IH].
  - exact IH.
Qed.

Lemma probeBase_find repoName envPaths base :
  probeBase H repoName envPaths base
  = if Js.truthy base
    then List.find (accepted H envPaths) (subPaths repoName base)
    else None.
Proof.
  unfold probeBase, subPaths. rewrite probeCandidates_find.
  now destruct (Js.truthy base).
Qed.

(** The search over the bases is the first accepted sub-path of the
    ordered list of sub-paths. *)
Lemma findBase_find repoName envPaths bases :
  findBase H repoName envPaths bases
  = List.find (accepted H envPaths)
      (flat_map (subPaths repoName) (List.filter Js.truthy bases)).
Proof.
  induction bases as [|b rest IH]; [reflexivity|].
  cbn [findBase List.filter]. rewrite probeBase_find.
  destruct (Js.truthy b).
  - cbn [flat_map]. rewrite find_append.
    destruct (List.find (accepted H envPaths) (subPaths repoName b));
      [reflexivity | exact IH].
  - exact IH.
Qed.

Lemma findOverride_none repoName overrides :
  findOverride repoName overrides = None
  <-> forall o, In o overrides -> name o <> repoName.
Proof.
  unfold findOverride. rewrite find_none_iff. split; intros Hn o Ho.
  - specialize (Hn o Ho). now apply String.eqb_neq in Hn.
  - apply String.eqb_neq. now apply Hn.
Qed.

Lemma findOverride_first repoName before o after :
  (forall o', In o' before -> name o' <> repoName) -> name o = repoName ->
  findOverride repoName (before ++ o :: after) = Some o.
Proof.
  intros Hb Ho. unfold findOverride. apply find_first.
  - intros y Hy. apply String.eqb_neq. now apply Hb.
  - now apply String.eqb_eq.
Qed.

(** Bases that are non-empty and have no trailing slash to strip are
    searched as they are. *)
Lemma orderedSubPaths_plain repoName config envPaths :
  (forall base, In base (candidateBases H config envPaths) ->
     stripTrailingSlash H base = base /\ base <> "") ->
  orderedSubPaths H repoName config envPaths
  = flat_map (subPaths repoName) (candidateBases H config envPaths).
Proof.
  unfold orderedSubPaths.
  generalize (candidateBases H config envPaths). intros bases Hb.
  induction bases as [|b rest IH]; [reflexivity|].
  destruct (Hb b (or_introl eq_refl)) as [Hs Hne].
  apply truthy_true in Hne.
  cbn [map List.filter]. rewrite Hs, Hne. cbn [flat_map].
  rewrite IH; [reflexivity|]. intros base Hin. apply Hb. now right.
Qed.

End RepoResolverFacts.

(** C2, as the code has it.  When several overrides carry the same
    repository name, [resolveRepositoryHostPath] uses the path of the
    first-listed entry for that name (first match wins): with no entry
    for the name before [o], and [o]'s path non-empty before and after
    the trailing slash is stripped, the result is decided by that path
    alone, whatever follows [o] in the list. *)
Theorem resolveRepositoryHostPath_first_override_wins
    (H : Host) (repoName : string) (config : Config)
    (envPaths : EnvironmentPaths)
    (before after : list RepositoryOverride) (o : RepositoryOverride) :
  userRepositories config = before ++ o :: after ->
  (forall o', In o' before -> name o' <> repoName) ->
  name o = repoName ->
  path o <> "" ->
  stripTrailingSlash H (path o) <> "" ->
  resolveRepositoryHostPath H repoName config envPaths =
    if Js.startsWith (stripTrailingSlash H (path o)) "/"
    then checkedHostPath H repoName (stripTrailingSlash H (path o)) envPaths
    else Throw (ValidationError
                  (msgRepoPathMustBeAbsolute repoName
                     (stripTrailingSlash H (path o)))).
Proof.
  intros Hl Hb Hn Hp Hs. unfold resolveRepositoryHostPath.
  rewrite Hl, (findOverride_first repoName before o after Hb Hn).
  unfold overridePath. apply truthy_true in Hp, Hs. rewrite Hp, Hs.
  destruct (Js.startsWith (stripTrailingSlash H (path o)) "/"); reflexivity.
Qed.

Lemma resolveRepositoryHostPath_first_override_wins_witness :
  resolveRepositoryHostPath (Sample.host Sample.devFiles) "main"
    Sample.twoOverrides Sample.devPaths
  = checkedHostPath (Sample.host Sample.devFiles) "main" "/abs/one"
      Sample.devPaths.
Proof.
  apply (resolveRepositoryHostPath_first_override_wins
           (Sample.host Sample.devFiles) "main" Sample.twoOverrides
           Sample.devPaths []
           [{| name := "main"; path := "/abs/two" |}]
           {| name := "main"; path := "/abs/one" |}).
  - reflexivity.
  - intros o' [].
  - reflexivity.
  - discriminate.
  - vm_compute. discriminate.
Defined.

(** C2, as stated, fails: with the overrides [main=/abs/one] then
    [main=/abs/two], the last-listed entry for [main] is [/abs/two], and
    the resolver returns [/abs/one]. *)
Lemma resolveRepositoryHostPath_last_override_ignored :
  userRepositories Sample.twoOverrides
    = [ {| name := "main"; path := "/abs/one" |};
        {| name := "main"; path := "/abs/two" |} ]
  /\ lastOverride "main" (userRepositories Sample.twoOverrides)
     = Some {| name := "main"; path := "/abs/two" |}
  /\ resolveRepositoryHostPath (Sample.host Sample.devFiles) "main"
       Sample.twoOverrides Sample.devPaths = Return "/abs/one"
  /\ resolveRepositoryHostPath (Sample.host Sample.devFiles) "main"
       Sample.twoOverrides Sample.devPaths <> Return "/abs/two".
Proof.
  repeat split; try reflexivity. vm_compute. discriminate.
Qed.

(** C3. With no override for [repoName]: when [currentRepoHostRoot] is
    unset the call throws a [ConfigurationError]; otherwise the bases
    are [pluginsRoot] (if set), [currentRepoHostRoot], then (if a
    sibling root is set) the sibling's [wazuh-dashboard-plugins] and
    [wazuh-dashboard], each with its trailing slash stripped; under each
    (non-empty) base the sub-paths [{base}/plugins/{repoName}],
    [{base}/{repoName}], [{base}] are probed in that order; the first
    sub-path of the whole ordered list that is reachable in the
    container and has a package manifest under it is chosen, every
    sub-path before it having been rejected; when none is accepted the
    call throws a [ValidationError]. *)
Theorem resolveRepositoryHostPath_autodetect
    (H : Host) (repoName : string) (config : Config)
    (envPaths : EnvironmentPaths) :
  (forall o, In o (userRepositories config) -> name o <> repoName) ->
  candidateBases H config envPaths
    = (if Js.truthy (pluginsRoot config) then [pluginsRoot config] else [])
      ++ [currentRepoHostRoot envPaths]
      ++ (if Js.truthy (siblingRepoHostRoot envPaths)
          then [ resolve H (siblingRepoHostRoot envPaths)
                   "wazuh-dashboard-plugins";
                 resolve H (siblingRepoHostRoot envPaths) "wazuh-dashboard" ]
          else [])
  /\ ((forall base, In base (candidateBases H config envPaths) ->
         stripTrailingSlash H base = base /\ base <> "") ->
      orderedSubPaths H repoName config envPaths
      = flat_map (fun base => [ base +:+ "/plugins/" +:+ repoName;
                                base +:+ "/" +:+ repoName;
                                base ])
          (candidateBases H config envPaths))
  /\ (currentRepoHostRoot envPaths = "" ->
      resolveRepositoryHostPath H repoName config envPaths
      = Throw (ConfigurationError (msgEnvNotSet "CURRENT_REPO_HOST_ROOT")))
  /\ (currentRepoHostRoot envPaths <> "" ->
      (forall chosen,
         firstAccepted H repoName config envPaths = Some chosen ->
         resolveRepositoryHostPath H repoName config envPaths
         = checkedHostPath H repoName chosen envPaths
         /\ exists rejected rest,
             orderedSubPaths H repoName config envPaths
             = rejected ++ chosen :: rest
             /\ accepted H envPaths chosen = true
             /\ forall p, In p rejected -> accepted H envPaths p = false)
      /\ (firstAccepted H repoName config envPaths = None ->
          resolveRepositoryHostPath H repoName config envPaths
          = Throw (ValidationError (msgRepoPathNotProvided repoName)))).
Proof.
  intros Hno. apply findOverride_none in Hno.
  split; [reflexivity|].
  split; [apply orderedSubPaths_plain|].
  unfold resolveRepositoryHostPath. rewrite Hno. simpl overridePath.
  change (Js.truthy "") with false. cbv iota.
  rewrite findBase_find.
  fold (orderedSubPaths H repoName config envPaths).
  fold (firstAccepted H repoName config envPaths).
  split; [|intros Hc; split].
  - intros Hc. apply truthy_false in Hc. now rewrite Hc.
  - intros chosen Hf. apply truthy_true in Hc. rewrite Hc, Hf. simpl.
    split; [reflexivity|].
    unfold firstAccepted in Hf.
    revert Hf. generalize (orderedSubPaths H repoName config envPaths).
    intros l. induction l as [|a l IH]; simpl; [discriminate|].
    destruct (accepted H envPaths a) eqn:Ea.
    + intros [= ->]. exists [], l. repeat split; [assumption|]. intros p [].
    + intros Hf. destruct (IH Hf) as (rej & rest & -> & Hacc & Hrej).
      exists (a :: rej), rest. repeat split; [assumption|].
      intros p [<- | Hp]; [assumption | now apply Hrej].
  - intros Hf. apply truthy_true in Hc. now rewrite Hc, Hf.
Qed.

Lemma resolveRepositoryHostPath_autodetect_witness :
  resolveRepositoryHostPath (Sample.host Sample.devFiles) "main" newConfig
    Sample.devPaths
  = Return "/dev/wazuh-dashboard-plugins/plugins/main"
  /\ resolveRepositoryHostPath (Sample.host Sample.devFiles) "main" newConfig
       Sample.noPaths
     = Throw (ConfigurationError (msgEnvNotSet "CURRENT_REPO_HOST_ROOT"))
  /\ resolveRepositoryHostPath (Sample.host Sample.devFiles) "absent"
       newConfig Sample.devPaths
     = Throw (ValidationError (msgRepoPathNotProvided "absent")).
Proof.
  split; [|split].
  - destruct (resolveRepositoryHostPath_autodetect
                (Sample.host Sample.devFiles) "main" newConfig
                Sample.devPaths) as (_ & _ & _ & Hset).
    + intros o [].
    + destruct (Hset ltac:(discriminate)) as [Hsome _].
      destruct (Hsome "/dev/wazuh-dashboard-plugins/plugins/main"
                  ltac:(vm_compute; reflexivity)) as [Hr _].
      rewrite Hr. reflexivity.
  - destruct (resolveRepositoryHostPath_autodetect
                (Sample.host Sample.devFiles) "main" newConfig
                Sample.noPaths) as (_ & _ & Hunset & _).
    + intros o [].
    + apply Hunset. reflexivity.
  - destruct (resolveRepositoryHostPath_autodetect
                (Sample.host Sample.devFiles) "absent" newConfig
                Sample.devPaths) as (_ & _ & _ & Hset).
    + intros o [].
    + destruct (Hset ltac:(discriminate)) as [_ Hnone].
      apply Hnone. vm_compute. reflexivity.
Defined.

(** ** The argument parser *)

Section ArgumentParserFacts.

Variable K : AppConstants.
Variable H : Host.

(** Case analysis on every test of one loop iteration. *)
Ltac step_cases :=
  unfold scanStep, repoCase, printUsageAndExit, bind, check in *;
  split_tests.

(** With pairwise distinct spellings every flag selects its own case. *)
Lemma dispatch_flags :
  NoDup (flagNames K) ->
  dispatch K (FLAG_HELP K) = CaseHelp
  /\ dispatch K (FLAG_HELP_SHORT K) = CaseHelp
  /\ dispatch K (FLAG_PLUGINS_ROOT K) = CasePluginsRoot
  /\ dispatch K (FLAG_PLUGINS_ROOT_WDP K) = CasePluginsRoot
  /\ dispatch K (FLAG_PLUGINS_ROOT_WZ_HOME K) = CasePluginsRoot
  /\ dispatch K (FLAG_OS_VERSION K) = CaseOsVersion
  /\ dispatch K (FLAG_OSD_VERSION K) = CaseOsdVersion
  /\ dispatch K (FLAG_AGENTS_UP K) = CaseAgentsUp
  /\ dispatch K (FLAG_SAML K) = CaseSaml
  /\ dispatch K (FLAG_SERVER K) = CaseServer
  /\ dispatch K (FLAG_SERVER_LOCAL K) = CaseServerLocal
  /\ dispatch K (FLAG_REPO K) = CaseRepo
  /\ dispatch K (FLAG_BASE K) = CaseBase
  /\ dispatch K (FLAG_INDEXER_LOCAL K) = CaseIndexerLocal.
Proof.
  unfold flagNames. intros Hnd.
  repeat match type of Hnd with
         | NoDup (_ :: _) =>
             let Hx := fresh "Hx" in
             apply NoDup_cons in Hnd as [Hx Hnd];
             rewrite ?not_elem_of_cons in Hx
         end.
  destruct_and!. unfold dispatch.
  repeat split;
    repeat match goal with
           | |- context [String.eqb ?a ?b] =>
               destruct (String.eqb_spec a b);
               [ first [reflexivity | congruence] | try congruence ]
           end.
Qed.

(** An iteration that continues moves the index forward. *)
Lemma scanStep_advances argv envPaths config index env arg env' config'
    index' :
  scanStep K H argv envPaths config index env arg
    = (env', Return (config', index')) ->
  index < index'.
Proof.
  intros Hs. step_cases; try discriminate;
    injection Hs as _ _ <-; lia.
Qed.

(** The loop never runs out of fuel when given as many iterations as
    tokens remain. *)
Lemma scanLoop_total fuel argv envPaths config index env :
  length argv - index <= fuel ->
  is_Some (scanLoop K H fuel argv envPaths config index env).
Proof.
  revert config index env.
  induction fuel as [|fuel IH]; intros config index env Hf; simpl.
  - destruct (argv !! index) eqn:Ha; [|eexists; reflexivity].
    apply lookup_lt_Some in Ha. lia.
  - destruct (argv !! index) eqn:Ha; [|eexists; reflexivity].
    apply lookup_lt_Some in Ha.
    destruct (scanStep K H argv envPaths config index env s)
      as [env' [[config' index']|e|code]] eqn:Hs;
      try (eexists; reflexivity).
    apply scanStep_advances in Hs. apply IH. lia.
Qed.

Lemma parseArguments_total argv envPaths env :
  is_Some (parseArguments K H argv envPaths env).
Proof.
  unfold parseArguments.
  destruct (scanLoop_total (length argv) argv envPaths newConfig 0 env)
    as [[env' r] Hr]; [lia|].
  rewrite Hr. destruct r; eexists; reflexivity.
Qed.

(** *** What the parser writes to the process environment *)






End ArgumentParserFacts.

(** *** After the loop *)

Section PostScanFacts.

Variable H : Host.

(** The post-scan checks leave the two server flags as the loop set
    them. *)
Lemma postScanChecks_server_flags envPaths config config' :
  postScanChecks H envPaths config = Return config' ->
  serverFlagVersion config' = serverFlagVersion config
  /\ serverLocalFlagVersion config' = serverLocalFlagVersion config.
Proof.
  unfold postScanChecks, inferDashboardBase, checkDashboardBase,
    checkPluginsRoot, defaultPluginsRoot, bind, check.
  intros Hp. split_tests; try discriminate;
    injection Hp as <-; subst;
    repeat match goal with
           | E : Return _ = Return _ |- _ => injection E as <-
           end; split; reflexivity.
Qed.

(** The mode mapping returns no configuration with both flags set. *)
Lemma mapModeFlags_not_both config config' :
  mapModeFlags config = Return config' ->
  Js.truthy (serverFlagVersion config')
  && Js.truthy (serverLocalFlagVersion config') = false.
Proof.
  unfold mapModeFlags. intros Hm.
  destruct (Js.truthy (serverFlagVersion config)) eqn:Es,
           (Js.truthy (serverLocalFlagVersion config)) eqn:El;
    simpl in Hm; try discriminate;
    split_tests; injection Hm as <-; simpl; rewrite ?Es, ?El; reflexivity.
Qed.

Lemma mapModeFlags_both config :
  serverFlagVersion config <> "" -> serverLocalFlagVersion config <> "" ->
  mapModeFlags config = Throw (ValidationError msgCannotCombineServerFlags).
Proof.
  intros Hs Hl. apply truthy_true in Hs, Hl. unfold mapModeFlags.
  now rewrite Hs, Hl.
Qed.

End PostScanFacts.

(** No returned configuration has both server flags set; and when the
    scan ends with both recorded, the parse fails: with the
    [ValidationError] of the combined flags when the checks between the
    scan and the mode mapping pass, and otherwise with the error of the
    first of those checks that fails. *)
Lemma recorded_server_flags_fail
    (K : AppConstants) (H : Host) (argv : list string)
    (envPaths : EnvironmentPaths) (env : ProcessEnv) :
  (forall env' config,
     parseArguments K H argv envPaths env = Some (env', Return config) ->
     ~ (serverFlagVersion config <> ""
        /\ serverLocalFlagVersion config <> ""))
  /\ (forall env' config,
        scanLoop K H (length argv) argv envPaths newConfig 0 env
        = Some (env', Return config) ->
        serverFlagVersion config <> "" ->
        serverLocalFlagVersion config <> "" ->
        parseArguments K H argv envPaths env
        = Some (env',
                match postScanChecks H envPaths config with
                | Return _ =>
                    Throw (ValidationError msgCannotCombineServerFlags)
                | Throw e => Throw e
                | Exit code => Exit code
                end)).
Proof.
  split.
  - intros env' config Hp [Hs Hl]. unfold parseArguments in Hp.
    destruct (scanLoop K H (length argv) argv envPaths newConfig 0 env)
      as [[env1 [c|e|code]]|]; try discriminate.
    injection Hp as _ Hf. unfold finishParse, bind in Hf.
    destruct (postScanChecks H envPaths c) as [c'|e|code];
      try discriminate.
    apply mapModeFlags_not_both in Hf.
    apply truthy_true in Hs, Hl. rewrite Hs, Hl in Hf. discriminate.
  - intros env' config Hscan Hs Hl. unfold parseArguments.
    rewrite Hscan. unfold finishParse, bind.
    destruct (postScanChecks H envPaths config) as [c'|e|code] eqn:Hp;
      try reflexivity.
    destruct (postScanChecks_server_flags H envPaths config c' Hp)
      as [Es El].
    rewrite mapModeFlags_both; [reflexivity | congruence | congruence].
Qed.

(** C1, as stated, fails: both flags are supplied with values, and with
    [--base] also present and no sibling root in the environment the
    parse ends in a [ConfigurationError], raised before the two flags
    are compared. *)
Lemma server_flags_with_base_configuration_error :
  suppliedWithValue "--server"
    ["up"; "--server"; "1.0"; "--server-local"; "tag"; "--base"]
  /\ suppliedWithValue "--server-local"
       ["up"; "--server"; "1.0"; "--server-local"; "tag"; "--base"]
  /\ parseArguments Sample.constants (Sample.host Sample.devFiles)
       ["up"; "--server"; "1.0"; "--server-local"; "tag"; "--base"]
       Sample.noSiblingPaths ∅
     = Some (∅, Throw (ConfigurationError msgCannotInferDashboardBase))
  /\ ~ (exists env' outcome,
          parseArguments Sample.constants (Sample.host Sample.devFiles)
            ["up"; "--server"; "1.0"; "--server-local"; "tag"; "--base"]
            Sample.noSiblingPaths ∅ = Some (env', outcome)
          /\ isValidationError outcome).
Proof.
  assert (Hp : parseArguments Sample.constants (Sample.host Sample.devFiles)
                 ["up"; "--server"; "1.0"; "--server-local"; "tag"; "--base"]
                 Sample.noSiblingPaths ∅
               = Some (∅, Throw (ConfigurationError
                                   msgCannotInferDashboardBase)))
    by reflexivity.
  split; [|split; [|split]].
  - exists 1, "1.0". repeat split; discriminate.
  - exists 3, "tag". repeat split; discriminate.
  - exact Hp.
  - intros (env' & outcome & Ho & m & ->). rewrite Hp in Ho. discriminate.
Qed.

(** *** Flags and their values *)

Section FlagValueFacts.

Variable K : AppConstants.
Variable H : Host.

Lemma startsWith_char s c :
  Js.startsWith s (String c EmptyString) = true ->
  exists rest, s = String c rest.
Proof.
  destruct s as [|a s]; [discriminate|].
  unfold Js.startsWith. cbn [String.prefix].
  destruct (ascii_dec c a) as [<-|]; [eauto | discriminate].
Qed.

Lemma leading_dash_not_slash v :
  Js.startsWith v "-" = true -> Js.startsWith v "/" = false.
Proof.
  intros Hd. apply startsWith_char in Hd as [rest ->]. reflexivity.
Qed.

Lemma leading_slash_not_dash v :
  Js.startsWith v "/" = true -> Js.startsWith v "-" = false.
Proof.
  intros Hd. apply startsWith_char in Hd as [rest ->]. reflexivity.
Qed.

Lemma leading_dash_not_agents v :
  Js.startsWith v "-" = true ->
  Js.has ["rpm"; "deb"; "without"; ""]
    (if String.eqb v "none" || String.eqb v "0" then "without" else v)
  = false.
Proof.
  intros Hd. apply startsWith_char in Hd as [rest ->]. reflexivity.
Qed.

(** The cases that test their value: a value that is absent, or that
    starts with a dash, ends the iteration in the [ValidationError] of
    that flag, with the environment untouched. *)
Lemma required_value_checked argv envPaths config index env arg :
  In (dispatch K arg)
    [ CasePluginsRoot; CaseOsVersion; CaseOsdVersion; CaseAgentsUp;
      CaseServer; CaseServerLocal ] ->
  (argv !! S index = None
   \/ exists v, argv !! S index = Some v /\ Js.startsWith v "-" = true) ->
  scanStep K H argv envPaths config index env arg
  = (env, Throw (ValidationError (valueMessage K (dispatch K arg)))).
Proof.
  intros Hc Hv. unfold scanStep.
  destruct Hv as [Hv | (v & Hv & Hd)]; rewrite Hv.
  - simpl in Hc. intuition; match goal with
                            | E : _ = dispatch K arg |- _ => rewrite <- E
                            end; reflexivity.
  - pose proof (leading_dash_not_slash v Hd) as Hs.
    pose proof (leading_dash_not_agents v Hd) as Ha.
    simpl in Hc. intuition; match goal with
                            | E : _ = dispatch K arg |- _ => rewrite <- E
                            end; cbn [valueMessage agentsUp setAgentsUp];
      rewrite ?Hd, ?Hs, ?Ha, ?orb_true_r; reflexivity.
Qed.

(** The repository case calls a method of its value without testing
    it. *)
Lemma repo_value_absent argv envPaths config index env arg :
  dispatch K arg = CaseRepo -> argv !! S index = None ->
  scanStep K H argv envPaths config index env arg = (env, Throw TypeError).
Proof.
  intros Hc Hv. unfold scanStep. now rewrite Hc, Hv.
Qed.

(** [--base]: the iteration always continues or ends in the error of
    the accessibility check; when it continues, the next token is
    consumed exactly when it is non-empty, has no leading dash, and is
    an absolute path or no action. *)
Lemma base_next_token argv envPaths config index env arg config' index' :
  dispatch K arg = CaseBase ->
  scanStep K H argv envPaths config index env arg
  = (env, Return (config', index')) ->
  (index' = index + 2 /\
   exists next, argv !! (index + 1) = Some next /\ next <> ""
     /\ Js.startsWith next "-" = false
     /\ (Js.startsWith next "/" = true \/ Js.has (ACTIONS K) next = false))
  \/ (index' = index + 1 /\
      forall next, argv !! (index + 1) = Some next ->
        next = "" \/ Js.startsWith next "-" = true
        \/ Js.has (ACTIONS K) next = true).
Proof.
  intros Hc Hs. unfold scanStep in Hs. rewrite Hc in Hs.
  destruct (argv !! (index + 1)) as [next|] eqn:Hn.
  - destruct (Js.truthy next) eqn:Ht; simpl in Hs.
    + apply truthy_true in Ht.
      destruct (Js.startsWith next "/") eqn:Hsl.
      * unfold bind, check in Hs.
        destruct (ensureAccessibleHostPath H _ _ _); [discriminate|].
        injection Hs as _ <-. left. split; [reflexivity|].
        exists next. repeat split; auto using leading_slash_not_dash.
      * destruct (Js.startsWith next "-") eqn:Hd; simpl in Hs.
        -- injection Hs as _ <-. right. split; [reflexivity|].
           intros n [= <-]. auto.
        -- destruct (Js.has (ACTIONS K) next) eqn:Ha; simpl in Hs;
             injection Hs as _ <-.
           ++ right. split; [reflexivity|]. intros n [= <-]. auto.
           ++ left. split; [reflexivity|]. exists next. auto.
    + apply truthy_false in Ht. injection Hs as _ <-. right.
      split; [reflexivity|]. intros n [= <-]. auto.
  - injection Hs as _ <-. right. split; [reflexivity|]. discriminate.
Qed.


End FlagValueFacts.

(** C6: the code at the failing input.  With [--repo] as the last
    token the parse ends in a [TypeError], not a [ValidationError]; and
    a value with a leading dash is accepted as a repository override.
    The other required-value flags do test their value
    ([required_value_checked]). *)
Theorem parseArguments_repo_value_unchecked :
  parseArguments Sample.constants (Sample.host Sample.devFiles)
    ["up"; "--repo"] Sample.devPaths ∅
  = Some (∅, Throw TypeError)
  /\ exists config,
      parseArguments Sample.constants (Sample.host Sample.devFiles)
        ["up"; "--repo"; "-x=/abs/one"] Sample.devPaths ∅
      = Some (∅, Return config)
      /\ userRepositories config = [ {| name := "-x"; path := "/abs/one" |} ].
Proof.
  split; [reflexivity|]. eexists. split; reflexivity.
Qed.

(** C7: the code at the failing input.  After [--indexer-local] the
    action token [up] is consumed as the image tag and the
    configuration has no action, and the flag token [--saml] is consumed
    the same way; after [--base] the same [up] is left in place and
    becomes the action. *)
Theorem parseArguments_indexer_local_consumes_action :
  (exists config,
      parseArguments Sample.constants (Sample.host Sample.devFiles)
        ["--indexer-local"; "up"] Sample.devPaths ∅
      = Some (<["IMAGE_INDEXER_PACKAGE_TAG" := "up"]> ∅, Return config)
      /\ action config = "")
  /\ (exists config,
        parseArguments Sample.constants (Sample.host Sample.devFiles)
          ["--indexer-local"; "--saml"] Sample.devPaths ∅
        = Some (<["IMAGE_INDEXER_PACKAGE_TAG" := "--saml"]> ∅, Return config)
        /\ enableSaml config = false)
  /\ (exists config,
        parseArguments Sample.constants (Sample.host Sample.devFiles)
          ["--base"; "up"] Sample.devPaths ∅
        = Some (∅, Return config)
        /\ action config = "up").
Proof.
  repeat split; eexists; split; reflexivity.
Qed.




(** * Further properties *)

(** ** configureModeAndSecurity: outcomes and writes *)

(** X1. [configureModeAndSecurity] never exits and throws nothing but a
    [ValidationError]; it throws exactly when the mode is a composite
    "server-local-..." token, or is "server" or "server-local" with an
    empty [modeVersion]; and a mode that is none of "server",
    "server-local", "saml" (and no composite token) gives the standard
    profile without an error. *)
Theorem configureModeAndSecurity_outcome
    (K : AppConstants) (config : Config) (env : ProcessEnv) :
  (forall e, snd (configureModeAndSecurity K config env) = Throw e ->
     exists m, e = ValidationError m)
  /\ (forall code, snd (configureModeAndSecurity K config env) <> Exit code)
  /\ ((exists e, snd (configureModeAndSecurity K config env) = Throw e)
      <-> (isCompositeServerLocal (mode config) = true
           \/ (mode config = "server" /\ modeVersion config = "")
           \/ (mode config = "server-local" /\ modeVersion config = "")))
  /\ (isCompositeServerLocal (mode config) = false ->
      mode config <> "server" -> mode config <> "server-local" ->
      mode config <> "saml" ->
      snd (configureModeAndSecurity K config env) = Return "standard").
Proof.
  split; [|split; [|split]].
  - intros e He. unfold configureModeAndSecurity in He.
    split_tests; simpl in He; try discriminate He; injection He as <-; eauto.
  - intros code He. unfold configureModeAndSecurity in He.
    split_tests; simpl in He; discriminate He.
  - unfold configureModeAndSecurity.
    destruct (isCompositeServerLocal (mode config)) eqn:Hc;
      [simpl; split; eauto|].
    unfold PROFILES.SERVER, PROFILES.SERVER_LOCAL, PROFILES.SAML.
    destruct (String.eqb_spec (mode config) "server") as [Hs|Hs].
    { destruct (Js.truthy (modeVersion config)) eqn:Hv; simpl.
      - apply truthy_true in Hv. split.
        + intros [e He]. discriminate He.
        + intros [?|[[_ ?]|[? _]]]; congruence.
      - apply truthy_false in Hv. split; eauto. }
    destruct (String.eqb_spec (mode config) "server-local") as [Hl|Hl].
    { destruct (Js.truthy (modeVersion config)) eqn:Hv; simpl.
      - apply truthy_true in Hv. split.
        + intros [e He]. discriminate He.
        + intros [?|[[? _]|[_ ?]]]; congruence.
      - apply truthy_false in Hv. split; eauto. }
    destruct (String.eqb (mode config) "saml"); simpl; split;
      try (intros [e He]; discriminate He);
      intros [?|[[? _]|[? _]]]; congruence.
  - intros Hc Hs Hl Hm. unfold configureModeAndSecurity. rewrite Hc.
    apply String.eqb_neq in Hs, Hl, Hm.
    change PROFILES.SERVER with "server".
    change PROFILES.SERVER_LOCAL with "server-local".
    change PROFILES.SAML with "saml".
    now rewrite Hs, Hl, Hm.
Qed.

Lemma afterFileSelection_files K config env :
  afterFileSelection K config env !! "WAZUH_DASHBOARD_CONF"
  = Some (if enableSaml config || String.eqb (mode config) PROFILES.SAML
          then dashboardConfSaml K else dashboardConf K)
  /\ afterFileSelection K config env !! "SEC_CONFIG_FILE"
     = Some (if enableSaml config || String.eqb (mode config) PROFILES.SAML
             then securityConfSaml K else securityConf K)
  /\ afterFileSelection K config env !! "SEC_CONFIG_PATH"
     = Some (SECURITY_CONFIG_PATH_2X K).
Proof.
  unfold afterFileSelection.
  destruct (enableSaml config || String.eqb (mode config) PROFILES.SAML);
    repeat split;
    repeat first [ apply lookup_insert_eq
                 | rewrite lookup_insert_ne by discriminate ].
Qed.

(** The environment [configureModeAndSecurity] leaves: the file
    selection, then at most one more variable. *)
Lemma configureModeAndSecurity_env K config env :
  fst (configureModeAndSecurity K config env)
  = if negb (isCompositeServerLocal (mode config))
       && String.eqb (mode config) PROFILES.SERVER
       && Js.truthy (modeVersion config)
    then <["WAZUH_STACK" := modeVersion config]>
           (afterFileSelection K config env)
    else if negb (isCompositeServerLocal (mode config))
            && String.eqb (mode config) PROFILES.SERVER_LOCAL
            && Js.truthy (modeVersion config)
    then <["IMAGE_TAG" := modeVersion config]>
           (afterFileSelection K config env)
    else afterFileSelection K config env.
Proof.
  unfold configureModeAndSecurity. fold (afterFileSelection K config env).
  destruct (isCompositeServerLocal (mode config)); [reflexivity|].
  destruct (String.eqb_spec (mode config) PROFILES.SERVER) as [Hs|Hs].
  - rewrite Hs. simpl.
    destruct (Js.truthy (modeVersion config)); reflexivity.
  - destruct (String.eqb (mode config) PROFILES.SERVER_LOCAL); simpl.
    + destruct (Js.truthy (modeVersion config)); reflexivity.
    + destruct (String.eqb (mode config) PROFILES.SAML); reflexivity.
Qed.

(** X2. What [configureModeAndSecurity] writes, whether it returns or
    throws: the dashboard and security configuration files are the SAML
    variants exactly when [enableSaml] is set or the mode is "saml", and
    the standard ones otherwise; [SEC_CONFIG_PATH] is the 2.x root;
    [WAZUH_STACK] changes only for mode "server" and [IMAGE_TAG] only
    for mode "server-local", each with a non-empty [modeVersion]; no
    other variable changes. *)
Theorem configureModeAndSecurity_writes
    (K : AppConstants) (config : Config) (env : ProcessEnv) :
  fst (configureModeAndSecurity K config env) !! "WAZUH_DASHBOARD_CONF"
  = Some (if enableSaml config || String.eqb (mode config) "saml"
          then dashboardConfSaml K else dashboardConf K)
  /\ fst (configureModeAndSecurity K config env) !! "SEC_CONFIG_FILE"
     = Some (if enableSaml config || String.eqb (mode config) "saml"
             then securityConfSaml K else securityConf K)
  /\ fst (configureModeAndSecurity K config env) !! "SEC_CONFIG_PATH"
     = Some (SECURITY_CONFIG_PATH_2X K)
  /\ (mode config <> "server" \/ modeVersion config = "" ->
      fst (configureModeAndSecurity K config env) !! "WAZUH_STACK"
      = env !! "WAZUH_STACK")
  /\ (mode config <> "server-local" \/ modeVersion config = "" ->
      fst (configureModeAndSecurity K config env) !! "IMAGE_TAG"
      = env !! "IMAGE_TAG")
  /\ (forall variable,
        ~ In variable [ "WAZUH_DASHBOARD_CONF"; "SEC_CONFIG_FILE";
                        "SEC_CONFIG_PATH"; "WAZUH_STACK"; "IMAGE_TAG" ] ->
        fst (configureModeAndSecurity K config env) !! variable
        = env !! variable).
Proof.
  rewrite configureModeAndSecurity_env.
  destruct (afterFileSelection_files K config env) as (Hd & Hf & Hp).
  assert (Hkeep : forall k, k <> "WAZUH_DASHBOARD_CONF" ->
            k <> "SEC_CONFIG_FILE" -> k <> "SEC_CONFIG_PATH" ->
            afterFileSelection K config env !! k = env !! k)
    by (intros; now apply afterFileSelection_other).
  split; [|split; [|split; [|split; [|split]]]].
  - change PROFILES.SAML with "saml" in Hd.
    repeat match goal with
           | |- context [if negb ?a && ?b && ?c then _ else _] =>
               destruct (negb a && b && c)
           end; rewrite ?lookup_insert_ne by discriminate; exact Hd.
  - change PROFILES.SAML with "saml" in Hf.
    repeat match goal with
           | |- context [if negb ?a && ?b && ?c then _ else _] =>
               destruct (negb a && b && c)
           end; rewrite ?lookup_insert_ne by discriminate; exact Hf.
  - repeat match goal with
           | |- context [if negb ?a && ?b && ?c then _ else _] =>
               destruct (negb a && b && c)
           end; rewrite ?lookup_insert_ne by discriminate; exact Hp.
  - intros Hm. unfold PROFILES.SERVER.
    destruct (String.eqb_spec (mode config) "server") as [Hs|Hs];
      destruct (Js.truthy (modeVersion config)) eqn:Hv;
      rewrite ?andb_false_r, ?andb_false_l; simpl;
      try (apply truthy_true in Hv; destruct Hm; congruence);
      repeat match goal with
             | |- context [if ?c then _ else _] => destruct c
             end; rewrite ?lookup_insert_ne by discriminate;
      apply Hkeep; discriminate.
  - intros Hm. unfold PROFILES.SERVER_LOCAL.
    destruct (String.eqb_spec (mode config) "server-local") as [Hs|Hs];
      destruct (Js.truthy (modeVersion config)) eqn:Hv;
      rewrite ?andb_false_r, ?andb_false_l; simpl;
      try (apply truthy_true in Hv; destruct Hm; congruence);
      repeat match goal with
             | |- context [if ?c then _ else _] => destruct c
             end; rewrite ?lookup_insert_ne by discriminate;
      apply Hkeep; discriminate.
  - intros k Hk. simpl in Hk.
    repeat match goal with
           | |- context [if negb ?a && ?b && ?c then _ else _] =>
               destruct (negb a && b && c)
           end; rewrite ?lookup_insert_ne by (intros <-; tauto);
      apply Hkeep; intros ->; tauto.
Qed.

(** ** initializeBaseEnvironment *)

Lemma envOr_idempotent value fallback :
  envOr (Some (envOr value fallback)) fallback = envOr value fallback.
Proof.
  destruct value as [v|]; simpl.
  - destruct (Js.truthy v) eqn:Hv; simpl; [now rewrite Hv|].
    now destruct (Js.truthy fallback).
  - now destruct (Js.truthy fallback).
Qed.

Lemma initializeBaseEnvironment_lookups D config env :
  initializeBaseEnvironment D config env !! "PASSWORD"
  = Some (envOr (env !! "PASSWORD") (defaultPassword D))
  /\ initializeBaseEnvironment D config env !! "OS_VERSION"
     = Some (osVersion config)
  /\ initializeBaseEnvironment D config env !! "OSD_VERSION"
     = Some (osdVersion config)
  /\ initializeBaseEnvironment D config env !! "OSD_PORT"
     = Some (envOr (env !! "PORT") (osdPort D))
  /\ initializeBaseEnvironment D config env !! "IMPOSTER_VERSION"
     = Some (imposterVersion D)
  /\ initializeBaseEnvironment D config env !! "SRC"
     = Some (if Js.truthy (pluginsRoot config) then pluginsRoot config
             else "").
Proof.
  unfold initializeBaseEnvironment. cbv zeta.
  replace ((<["OSD_VERSION" := osdVersion config]>
              (<["OS_VERSION" := osVersion config]>
                 (<["PASSWORD" := envOr (env !! "PASSWORD")
                                    (defaultPassword D)]> env)))
           !! "PORT") with (env !! "PORT")
    by (now rewrite !lookup_insert_ne by discriminate).
  repeat split;
    repeat first [ apply lookup_insert_eq
                 | rewrite lookup_insert_ne by discriminate ].
Qed.

Lemma initializeBaseEnvironment_other D config env k :
  ~ In k [ "PASSWORD"; "OS_VERSION"; "OSD_VERSION"; "OSD_PORT";
           "IMPOSTER_VERSION"; "SRC" ] ->
  initializeBaseEnvironment D config env !! k = env !! k.
Proof.
  intros Hk. simpl in Hk. unfold initializeBaseEnvironment.
  repeat (rewrite lookup_insert_ne by (intros <-; tauto)). reflexivity.
Qed.

(** X3. [initializeBaseEnvironment] keeps a non-empty [PASSWORD] that is
    already set and puts the default in place of an unset or empty one;
    [OSD_PORT] follows [PORT] with the default port as fallback, and
    [PORT] itself is never written; [SRC] is the plugins root; no
    variable beyond the six is touched; and running it a second time
    changes nothing. *)
Theorem initializeBaseEnvironment_effects
    (D : Defaults) (config : Config) (env : ProcessEnv) :
  (forall password, env !! "PASSWORD" = Some password -> password <> "" ->
     initializeBaseEnvironment D config env !! "PASSWORD" = Some password)
  /\ (env !! "PASSWORD" = None \/ env !! "PASSWORD" = Some "" ->
      initializeBaseEnvironment D config env !! "PASSWORD"
      = Some (defaultPassword D))
  /\ (forall port, env !! "PORT" = Some port -> port <> "" ->
        initializeBaseEnvironment D config env !! "OSD_PORT" = Some port)
  /\ (env !! "PORT" = None \/ env !! "PORT" = Some "" ->
      initializeBaseEnvironment D config env !! "OSD_PORT"
      = Some (osdPort D))
  /\ initializeBaseEnvironment D config env !! "SRC"
     = Some (pluginsRoot config)
  /\ (forall variable,
        ~ In variable [ "PASSWORD"; "OS_VERSION"; "OSD_VERSION"; "OSD_PORT";
                        "IMPOSTER_VERSION"; "SRC" ] ->
        initializeBaseEnvironment D config env !! variable
        = env !! variable)
  /\ initializeBaseEnvironment D config
       (initializeBaseEnvironment D config env)
     = initializeBaseEnvironment D config env.
Proof.
  destruct (initializeBaseEnvironment_lookups D config env)
    as (Hpw & Hos & Hosd & Hport & Himp & Hsrc).
  split; [|split; [|split; [|split; [|split; [|split]]]]].
  - intros password Hp Hne. rewrite Hpw, Hp. simpl.
    apply truthy_true in Hne. now rewrite Hne.
  - intros [Hp|Hp]; rewrite Hpw, Hp; reflexivity.
  - intros port Hp Hne. rewrite Hport, Hp. simpl.
    apply truthy_true in Hne. now rewrite Hne.
  - intros [Hp|Hp]; rewrite Hport, Hp; reflexivity.
  - rewrite Hsrc. destruct (Js.truthy (pluginsRoot config)) eqn:Ht;
      [reflexivity|]. apply truthy_false in Ht. now rewrite Ht.
  - intros variable Hv. now apply initializeBaseEnvironment_other.
  - destruct (initializeBaseEnvironment_lookups D config
                (initializeBaseEnvironment D config env))
      as (Hpw2 & Hos2 & Hosd2 & Hport2 & Himp2 & Hsrc2).
    rewrite Hpw, envOr_idempotent in Hpw2.
    rewrite (initializeBaseEnvironment_other D config env "PORT") in Hport2
      by (simpl; intros Hin; intuition discriminate).
    apply map_eq. intros k.
    destruct (in_dec string_dec k
                [ "PASSWORD"; "OS_VERSION"; "OSD_VERSION"; "OSD_PORT";
                  "IMPOSTER_VERSION"; "SRC" ]) as [Hin|Hout].
    + simpl in Hin.
      destruct Hin as [<-|[<-|[<-|[<-|[<-|[<-|[]]]]]]]; congruence.
    + now rewrite !initializeBaseEnvironment_other.
Qed.

(** ** resolveRepositoryHostPath: more on overrides and results *)

(** X4. An override whose path is empty, or empty once the trailing
    slash is stripped, is ignored: the first entry for the name decides,
    so the call falls back to auto-detection (even when a later entry
    for the same name has a usable path) and gives the result it gives
    for a configuration with the same plugins root and no entry for the
    name. *)
Theorem resolveRepositoryHostPath_empty_override_ignored
    (H : Host) (repoName : string) (config config' : Config)
    (envPaths : EnvironmentPaths)
    (before after : list RepositoryOverride) (o : RepositoryOverride) :
  userRepositories config = before ++ o :: after ->
  (forall o', In o' before -> name o' <> repoName) ->
  name o = repoName ->
  (path o = "" \/ stripTrailingSlash H (path o) = "") ->
  pluginsRoot config' = pluginsRoot config ->
  (forall o', In o' (userRepositories config') -> name o' <> repoName) ->
  resolveRepositoryHostPath H repoName config envPaths
  = resolveRepositoryHostPath H repoName config' envPaths.
Proof.
  intros Hl Hb Hn Hp Hr Hno. apply findOverride_none in Hno.
  unfold resolveRepositoryHostPath.
  rewrite Hl, (findOverride_first repoName before o after Hb Hn), Hno.
  assert (He : overridePath H (Some o) = "").
  { unfold overridePath. destruct Hp as [Hp|Hp].
    - rewrite Hp. reflexivity.
    - rewrite Hp. now destruct (Js.truthy (path o)). }
  rewrite He. simpl overridePath. unfold candidateBases. now rewrite Hr.
Qed.

Lemma resolveRepositoryHostPath_empty_override_ignored_witness :
  resolveRepositoryHostPath (Sample.host Sample.devFiles) "main"
    (addUserRepositoryOverride {| name := "main"; path := "/abs/two" |}
       (addUserRepositoryOverride {| name := "main"; path := "/" |}
          newConfig))
    Sample.devPaths
  = resolveRepositoryHostPath (Sample.host Sample.devFiles) "main" newConfig
      Sample.devPaths.
Proof.
  apply (resolveRepositoryHostPath_empty_override_ignored
           (Sample.host Sample.devFiles) "main" _ newConfig Sample.devPaths
           [] [{| name := "main"; path := "/abs/two" |}]
           {| name := "main"; path := "/" |}).
  - reflexivity.
  - intros o' [].
  - reflexivity.
  - right. reflexivity.
  - reflexivity.
  - intros o' [].
Defined.

(** X5. What a returned path is: the chosen host path with its trailing
    slash stripped, where the chosen path has passed the accessibility
    check and is either the stripped path of the first override for the
    name, which is then absolute (no manifest is looked for), or, with a
    current-repository root set, the first accepted sub-path of the
    search (reachable in the container, manifest present). *)
Theorem resolveRepositoryHostPath_returned_path
    (H : Host) (repoName : string) (config : Config)
    (envPaths : EnvironmentPaths) (result : string) :
  resolveRepositoryHostPath H repoName config envPaths = Return result ->
  exists hostPath,
    result = stripTrailingSlash H hostPath
    /\ ensureAccessibleHostPath H hostPath (repositoryLabel repoName) envPaths
       = None
    /\ ((exists o,
           findOverride repoName (userRepositories config) = Some o
           /\ hostPath = stripTrailingSlash H (path o)
           /\ hostPath <> ""
           /\ Js.startsWith hostPath "/" = true)
        \/ (currentRepoHostRoot envPaths <> ""
            /\ firstAccepted H repoName config envPaths = Some hostPath
            /\ accepted H envPaths hostPath = true)).
Proof.
  unfold resolveRepositoryHostPath. intros Hr.
  assert (Hchecked : forall hostPath,
            checkedHostPath H repoName hostPath envPaths = Return result ->
            result = stripTrailingSlash H hostPath
            /\ ensureAccessibleHostPath H hostPath (repositoryLabel repoName)
                 envPaths = None).
  { unfold checkedHostPath. intros hostPath Hc.
    destruct (ensureAccessibleHostPath H hostPath _ envPaths);
      [discriminate|]. now injection Hc as <-. }
  destruct (Js.truthy (overridePath H
              (findOverride repoName (userRepositories config)))) eqn:Ht.
  - destruct (Js.startsWith _ "/") eqn:Hs; simpl in Hr; [|discriminate].
    destruct (Hchecked _ Hr) as [-> He]. eexists. split; [reflexivity|].
    split; [exact He|]. left.
    destruct (findOverride repoName (userRepositories config)) as [o|];
      [|discriminate Ht].
    exists o. unfold overridePath in *.
    destruct (Js.truthy (path o)); [|discriminate Ht].
    apply truthy_true in Ht. auto.
  - destruct (Js.truthy (currentRepoHostRoot envPaths)) eqn:Hc;
      simpl in Hr; [|discriminate].
    rewrite findBase_find in Hr.
    fold (orderedSubPaths H repoName config envPaths) in Hr.
    fold (firstAccepted H repoName config envPaths) in Hr.
    destruct (firstAccepted H repoName config envPaths) as [hostPath|] eqn:Hf;
      [|discriminate].
    destruct (Hchecked _ Hr) as [-> He]. exists hostPath.
    split; [reflexivity|]. split; [exact He|]. right.
    apply truthy_true in Hc. repeat split; auto.
    unfold firstAccepted in Hf. now apply find_some in Hf.
Qed.

Lemma resolveRepositoryHostPath_returned_path_witness :
  exists hostPath,
    "/dev/wazuh-dashboard-plugins/plugins/main"
    = stripTrailingSlash (Sample.host Sample.devFiles) hostPath
    /\ ensureAccessibleHostPath (Sample.host Sample.devFiles) hostPath
         (repositoryLabel "main") Sample.devPaths = None
    /\ ((exists o,
           findOverride "main" (userRepositories newConfig) = Some o
           /\ hostPath = stripTrailingSlash (Sample.host Sample.devFiles)
                           (path o)
           /\ hostPath <> ""
           /\ Js.startsWith hostPath "/" = true)
        \/ (currentRepoHostRoot Sample.devPaths <> ""
            /\ firstAccepted (Sample.host Sample.devFiles) "main" newConfig
                 Sample.devPaths = Some hostPath
            /\ accepted (Sample.host Sample.devFiles) Sample.devPaths
                 hostPath = true)).
Proof.
  apply (resolveRepositoryHostPath_returned_path
           (Sample.host Sample.devFiles) "main" newConfig Sample.devPaths).
  reflexivity.
Defined.

(** ** resolveRequiredRepositories *)

Section RequiredRepositoriesFacts.

Variable H : Host.
Variable toRepositoryEnvVar : string -> string.
Variable config : Config.
Variable envPaths : EnvironmentPaths.

Lemma resolveRequiredLoop_all_resolved reqs envMap result :
  resolveRequiredLoop H toRepositoryEnvVar reqs config envPaths envMap
  = Return result ->
  forall repo, In repo reqs ->
    exists p, resolveRepositoryHostPath H repo config envPaths = Return p.
Proof.
  revert envMap. induction reqs as [|r rest IH]; intros envMap Hl repo Hin;
    [destruct Hin|].
  cbn [resolveRequiredLoop] in Hl. unfold bind in Hl.
  destruct (resolveRepositoryHostPath H r config envPaths) as [p| |] eqn:Hr;
    try discriminate.
  destruct Hin as [<-|Hin]; [eauto|]. eapply IH; eassumption.
Qed.

Lemma resolveRequiredLoop_absent reqs envMap result k :
  resolveRequiredLoop H toRepositoryEnvVar reqs config envPaths envMap
  = Return result ->
  (forall repo, In repo reqs -> toRepositoryEnvVar repo <> k) ->
  result !! k = envMap !! k.
Proof.
  revert envMap. induction reqs as [|r rest IH]; intros envMap Hl Hk.
  - now injection Hl as <-.
  - cbn [resolveRequiredLoop] in Hl. unfold bind in Hl.
    destruct (resolveRepositoryHostPath H r config envPaths) as [p| |];
      try discriminate.
    rewrite (IH _ Hl) by (intros repo Hin; apply Hk; now right).
    apply lookup_insert_ne. apply Hk. now left.
Qed.

Lemma resolveRequiredLoop_last before repo after envMap result p :
  resolveRequiredLoop H toRepositoryEnvVar (before ++ repo :: after) config
    envPaths envMap = Return result ->
  (forall r, In r after -> toRepositoryEnvVar r <> toRepositoryEnvVar repo) ->
  resolveRepositoryHostPath H repo config envPaths = Return p ->
  result !! toRepositoryEnvVar repo = Some p.
Proof.
  revert envMap. induction before as [|b before IH]; intros envMap Hl Ha Hp.
  - cbn [app resolveRequiredLoop] in Hl. rewrite Hp in Hl. simpl in Hl.
    rewrite (resolveRequiredLoop_absent _ _ _ _ Hl Ha).
    apply lookup_insert_eq.
  - cbn [app resolveRequiredLoop] in Hl. unfold bind in Hl.
    destruct (resolveRepositoryHostPath H b config envPaths) as [q| |];
      try discriminate.
    eapply IH; eassumption.
Qed.

Lemma resolveRequiredLoop_first_failure before repo after envMap e :
  (forall r, In r before ->
     exists p, resolveRepositoryHostPath H r config envPaths = Return p) ->
  resolveRepositoryHostPath H repo config envPaths = Throw e ->
  resolveRequiredLoop H toRepositoryEnvVar (before ++ repo :: after) config
    envPaths envMap = Throw e.
Proof.
  revert envMap. induction before as [|b before IH]; intros envMap Hb He.
  - cbn [app resolveRequiredLoop]. now rewrite He.
  - cbn [app resolveRequiredLoop].
    destruct (Hb b (or_introl eq_refl)) as [p Hp]. rewrite Hp. simpl.
    apply IH; [|exact He]. intros r Hr. apply Hb. now right.
Qed.

End RequiredRepositoriesFacts.

(** X6. [resolveRequiredRepositories] is all or nothing.  When it
    returns a map, every required repository has resolved, the map holds
    no variable but those of the required repositories, and the variable
    of a repository holds the path resolved for its last occurrence
    (for the repository itself when no later one shares its variable
    name).  When a repository fails after all those before it have
    resolved, the call fails with that error and returns no map,
    whatever follows in the list. *)
Theorem resolveRequiredRepositories_all_or_nothing
    (H : Host) (toRepositoryEnvVar : string -> string)
    (requiredRepositories : list string) (config : Config)
    (envPaths : EnvironmentPaths) :
  (forall envMap,
     resolveRequiredRepositories H toRepositoryEnvVar requiredRepositories
       config envPaths = Return envMap ->
     (forall repo, In repo requiredRepositories ->
        exists p,
          resolveRepositoryHostPath H repo config envPaths = Return p)
     /\ (forall variable,
           (forall repo, In repo requiredRepositories ->
              toRepositoryEnvVar repo <> variable) ->
           envMap !! variable = None)
     /\ (forall before repo after p,
           requiredRepositories = before ++ repo :: after ->
           (forall r, In r after ->
              toRepositoryEnvVar r <> toRepositoryEnvVar repo) ->
           resolveRepositoryHostPath H repo config envPaths = Return p ->
           envMap !! toRepositoryEnvVar repo = Some p))
  /\ (forall before repo after e,
        requiredRepositories = before ++ repo :: after ->
        (forall r, In r before ->
           exists p,
             resolveRepositoryHostPath H r config envPaths = Return p) ->
        resolveRepositoryHostPath H repo config envPaths = Throw e ->
        resolveRequiredRepositories H toRepositoryEnvVar requiredRepositories
          config envPaths = Throw e).
Proof.
  unfold resolveRequiredRepositories. split.
  - intros envMap Hl. split; [|split].
    + eapply resolveRequiredLoop_all_resolved; eassumption.
    + intros variable Hv.
      rewrite (resolveRequiredLoop_absent _ _ _ _ _ _ _ _ Hl Hv).
      apply lookup_empty.
    + intros before repo after p -> Ha Hp.
      eapply resolveRequiredLoop_last; eassumption.
  - intros before repo after e -> Hb He.
    now apply resolveRequiredLoop_first_failure.
Qed.

Lemma resolveRequiredRepositories_all_or_nothing_witness :
  (exists envMap,
      resolveRequiredRepositories (Sample.host Sample.devFiles)
        SampleEnv.repositoryVar ["main"] newConfig Sample.devPaths
      = Return envMap
      /\ envMap !! "REPO_main"
         = Some "/dev/wazuh-dashboard-plugins/plugins/main"
      /\ envMap !! "REPO_absent" = None)
  /\ resolveRequiredRepositories (Sample.host Sample.devFiles)
       SampleEnv.repositoryVar ["main"; "absent"; "main"] newConfig
       Sample.devPaths
     = Throw (ValidationError (msgRepoPathNotProvided "absent")).
Proof.
  destruct (resolveRequiredRepositories_all_or_nothing
              (Sample.host Sample.devFiles) SampleEnv.repositoryVar ["main"]
              newConfig Sample.devPaths) as [Hok _].
  destruct (resolveRequiredRepositories_all_or_nothing
              (Sample.host Sample.devFiles) SampleEnv.repositoryVar
              ["main"; "absent"; "main"] newConfig Sample.devPaths)
    as [_ Hfail].
  split.
  - eexists. split; [reflexivity|].
    destruct (Hok _ eq_refl) as (_ & Hnone & Hlast). split.
    + apply (Hlast [] "main" []); [reflexivity | intros r [] | reflexivity].
    + apply Hnone. intros repo [<-|[]]. discriminate.
  - apply (Hfail ["main"] "absent" ["main"]); [reflexivity | | reflexivity].
    intros r [<-|[]]. eexists. reflexivity.
Defined.

(** ** The argument parser: what a returned configuration satisfies *)

(** Case analysis on every test of one loop iteration, in the goal and
    the hypotheses. *)
Ltac scan_cases :=
  unfold scanStep, repoCase, printUsageAndExit, bind, check in *;
  split_tests.

Section ParseResultFacts.

Variable K : AppConstants.
Variable H : Host.

(** A property every continuing iteration preserves holds when the
    loop ends. *)
Lemma scanLoop_invariant (P : Config -> Prop) fuel argv envPaths config
    index env env' config' :
  (forall c i e arg e' c' i',
     argv !! i = Some arg ->
     scanStep K H argv envPaths c i e arg = (e', Return (c', i')) ->
     P c -> P c') ->
  P config ->
  scanLoop K H fuel argv envPaths config index env
  = Some (env', Return config') ->
  P config'.
Proof.
  intros Hstep. revert config index env.
  induction fuel as [|fuel IH]; intros config index env Hp Hl;
    simpl in Hl; destruct (argv !! index) as [arg|] eqn:Ha;
    try discriminate; try (now injection Hl as _ <-).
  destruct (scanStep K H argv envPaths config index env arg)
    as [env1 [[config1 index1]|e|code]] eqn:Hs; try discriminate.
  eapply IH; [|exact Hl]. eapply Hstep; eassumption.
Qed.

(** A returned configuration went through the loop, the post-scan
    checks and the mode mapping. *)
Lemma parseArguments_returns argv envPaths env env' config :
  parseArguments K H argv envPaths env = Some (env', Return config) ->
  exists scanned checked,
    scanLoop K H (length argv) argv envPaths newConfig 0 env
    = Some (env', Return scanned)
    /\ postScanChecks H envPaths scanned = Return checked
    /\ mapModeFlags checked = Return config.
Proof.
  unfold parseArguments, finishParse, bind.
  destruct (scanLoop K H (length argv) argv envPaths newConfig 0 env)
    as [[env1 [scanned|e|code]]|]; try discriminate.
  destruct (postScanChecks H envPaths scanned) as [checked|e|code] eqn:Hc;
    try discriminate.
  intros [= <- Hm]. eauto.
Qed.

(** The post-scan checks touch [pluginsRoot] and [dashboardBase]
    only. *)
Lemma postScanChecks_keeps envPaths config config' :
  postScanChecks H envPaths config = Return config' ->
  action config' = action config
  /\ agentsUp config' = agentsUp config
  /\ enableSaml config' = enableSaml config
  /\ mode config' = mode config
  /\ modeVersion config' = modeVersion config
  /\ useDashboardFromSource config' = useDashboardFromSource config
  /\ useIndexerFromPackage config' = useIndexerFromPackage config
  /\ userRepositories config' = userRepositories config.
Proof.
  unfold postScanChecks, inferDashboardBase, checkDashboardBase,
    checkPluginsRoot, defaultPluginsRoot, bind, check.
  intros Hp. split_tests; try discriminate;
    injection Hp as <-; subst;
    repeat match goal with
           | E : Return _ = Return _ |- _ => injection E as <-
           end; repeat split; reflexivity.
Qed.

(** The mode mapping touches [mode] and [modeVersion] only. *)
Lemma mapModeFlags_keeps config config' :
  mapModeFlags config = Return config' ->
  action config' = action config
  /\ agentsUp config' = agentsUp config
  /\ enableSaml config' = enableSaml config
  /\ serverFlagVersion config' = serverFlagVersion config
  /\ serverLocalFlagVersion config' = serverLocalFlagVersion config
  /\ pluginsRoot config' = pluginsRoot config
  /\ useDashboardFromSource config' = useDashboardFromSource config
  /\ dashboardBase config' = dashboardBase config
  /\ userRepositories config' = userRepositories config
  /\ useIndexerFromPackage config' = useIndexerFromPackage config.
Proof.
  unfold mapModeFlags. intros Hm.
  split_tests; try discriminate; injection Hm as <-;
    repeat split; reflexivity.
Qed.

(** The loop never writes [mode] or [modeVersion]. *)
Lemma scanStep_keeps_mode argv envPaths c i e arg e' c' i' :
  scanStep K H argv envPaths c i e arg = (e', Return (c', i')) ->
  mode c' = mode c /\ modeVersion c' = modeVersion c.
Proof.
  intros Hs. scan_cases; try discriminate;
    injection Hs as _ <- _; split; reflexivity.
Qed.

Lemma scanStep_agentsUp argv envPaths c i e arg e' c' i' :
  scanStep K H argv envPaths c i e arg = (e', Return (c', i')) ->
  Js.has ["rpm"; "deb"; "without"; ""] (agentsUp c) = true ->
  Js.has ["rpm"; "deb"; "without"; ""] (agentsUp c') = true.
Proof.
  intros Hs Hc. scan_cases; try discriminate;
    injection Hs as _ <- _; try exact Hc;
    match goal with
    | E : negb _ = false |- _ => apply negb_false_iff in E; exact E
    end.
Qed.

Lemma scanStep_action argv envPaths c i e arg e' c' i' :
  argv !! i = Some arg ->
  scanStep K H argv envPaths c i e arg = (e', Return (c', i')) ->
  action c = "" \/ (In (action c) (ACTIONS K) /\ In (action c) argv) ->
  action c' = "" \/ (In (action c') (ACTIONS K) /\ In (action c') argv).
Proof.
  intros Ha Hs Hc. scan_cases; try discriminate;
    injection Hs as _ <- _; try exact Hc.
  right. simpl. split.
  - now apply has_In.
  - apply list_elem_of_In. eapply list_elem_of_lookup_2. exact Ha.
Qed.

End ParseResultFacts.

Section ParsedConfigFacts.

Variable K : AppConstants.
Variable H : Host.

(** How the returned [mode] and [modeVersion] follow from the flags. *)
Lemma parsed_mode argv envPaths env env' config :
  parseArguments K H argv envPaths env = Some (env', Return config) ->
  (serverFlagVersion config <> "" ->
   serverLocalFlagVersion config = ""
   /\ mode config = PROFILES.SERVER
   /\ modeVersion config = serverFlagVersion config)
  /\ (serverFlagVersion config = "" -> serverLocalFlagVersion config <> "" ->
      mode config = PROFILES.SERVER_LOCAL
      /\ modeVersion config = serverLocalFlagVersion config)
  /\ (serverFlagVersion config = "" -> serverLocalFlagVersion config = "" ->
      modeVersion config = ""
      /\ mode config = if enableSaml config then PROFILES.SAML else "").
Proof.
  intros Hp.
  destruct (parseArguments_returns K H _ _ _ _ _ Hp)
    as (scanned & checked & Hscan & Hcheck & Hmap).
  assert (Hm : mode scanned = "" /\ modeVersion scanned = "").
  { apply (scanLoop_invariant K H
             (fun c => mode c = "" /\ modeVersion c = "")
             _ _ _ _ _ _ _ _) with (3 := Hscan); [|split; reflexivity].
    intros c i e arg e' c' i' _ Hs [Hc1 Hc2].
    destruct (scanStep_keeps_mode K H _ _ _ _ _ _ _ _ _ Hs) as [-> ->].
    now split. }
  destruct Hm as [Hm1 Hm2].
  destruct (postScanChecks_keeps H _ _ _ Hcheck)
    as (_ & _ & _ & Hk1 & Hk2 & _).
  rewrite Hm1 in Hk1. rewrite Hm2 in Hk2.
  unfold mapModeFlags in Hmap. rewrite Hk1 in Hmap.
  destruct (Js.truthy (serverFlagVersion checked)) eqn:Hs,
           (Js.truthy (serverLocalFlagVersion checked)) eqn:Hl;
    simpl in Hmap; try discriminate.
  - injection Hmap as <-. simpl. apply truthy_false in Hl.
    apply truthy_true in Hs. repeat split; auto; congruence.
  - injection Hmap as <-. simpl. apply truthy_false in Hs.
    apply truthy_true in Hl. repeat split; auto; congruence.
  - apply truthy_false in Hs, Hl.
    destruct (enableSaml checked) eqn:Hsaml; simpl in Hmap;
      injection Hmap as <-; simpl; rewrite ?Hsaml;
      repeat split; auto; congruence.
Qed.

Lemma parsed_agentsUp argv envPaths env env' config :
  parseArguments K H argv envPaths env = Some (env', Return config) ->
  In (agentsUp config) ["rpm"; "deb"; "without"; ""].
Proof.
  intros Hp.
  destruct (parseArguments_returns K H _ _ _ _ _ Hp)
    as (scanned & checked & Hscan & Hcheck & Hmap).
  destruct (postScanChecks_keeps H _ _ _ Hcheck) as (_ & Ha & _).
  destruct (mapModeFlags_keeps _ _ Hmap) as (_ & Hb & _).
  rewrite Hb, Ha. apply has_In.
  apply (scanLoop_invariant K H
           (fun c => Js.has ["rpm"; "deb"; "without"; ""] (agentsUp c) = true)
           _ _ _ _ _ _ _ _) with (3 := Hscan); [|reflexivity].
  intros c i e arg e' c' i' _ Hs Hc.
  eapply scanStep_agentsUp; eassumption.
Qed.

Lemma configure_saml config env :
  mode config = PROFILES.SAML ->
  snd (configureModeAndSecurity K config env) = Return PROFILES.SAML.
Proof.
  intros Hm. unfold configureModeAndSecurity. now rewrite Hm.
Qed.

Lemma configure_unset config env :
  mode config = "" ->
  snd (configureModeAndSecurity K config env) = Return PROFILES.STANDARD.
Proof.
  intros Hm. unfold configureModeAndSecurity. now rewrite Hm.
Qed.

End ParsedConfigFacts.

(** X7. The mode of a returned configuration follows from the flags
    alone (the scan never writes it): with a server version it is
    "server" with that version; else with a server-local tag it is
    "server-local" with that tag; else it is "saml" when SAML is enabled
    and stays unset otherwise, with no version. *)
Theorem parseArguments_mode_mapping
    (K : AppConstants) (H : Host) (argv : list string)
    (envPaths : EnvironmentPaths) (env env' : ProcessEnv) (config : Config) :
  parseArguments K H argv envPaths env = Some (env', Return config) ->
  (serverFlagVersion config <> "" ->
   serverLocalFlagVersion config = ""
   /\ mode config = "server"
   /\ modeVersion config = serverFlagVersion config)
  /\ (serverFlagVersion config = "" -> serverLocalFlagVersion config <> "" ->
      mode config = "server-local"
      /\ modeVersion config = serverLocalFlagVersion config)
  /\ (serverFlagVersion config = "" -> serverLocalFlagVersion config = "" ->
      modeVersion config = ""
      /\ mode config = if enableSaml config then "saml" else "").
Proof.
  intros Hp. exact (parsed_mode K H argv envPaths env env' config Hp).
Qed.

Lemma parseArguments_mode_mapping_witness :
  mode (SampleEnv.parsed ["up"; "--saml"; "--server-local"; "tag"])
  = "server-local"
  /\ modeVersion (SampleEnv.parsed ["up"; "--saml"; "--server-local"; "tag"])
     = "tag".
Proof.
  apply (proj1 (proj2
    (parseArguments_mode_mapping Sample.constants
       (Sample.host Sample.devFiles)
       ["up"; "--saml"; "--server-local"; "tag"] Sample.devPaths ∅ ∅
       (SampleEnv.parsed ["up"; "--saml"; "--server-local"; "tag"])
       eq_refl))).
  - reflexivity.
  - discriminate.
Defined.

(** X8. Parsing and configuring compose without an error: on every
    configuration [parseArguments] returns, [configureModeAndSecurity]
    returns a profile (it never throws), the profile is "server" with a
    server version, "server-local" (with the agents-up suffix when that
    is set) with a server-local tag, and otherwise "saml" or "standard"
    as SAML is enabled or not; so it is one of the seven profile strings
    of [parsedProfiles]. *)
Theorem parsed_config_configures
    (K : AppConstants) (H : Host) (argv : list string)
    (envPaths : EnvironmentPaths) (env env' : ProcessEnv) (config : Config)
    (processEnv : ProcessEnv) :
  parseArguments K H argv envPaths env = Some (env', Return config) ->
  exists profile,
    snd (configureModeAndSecurity K config processEnv) = Return profile
    /\ In profile parsedProfiles
    /\ profile
       = if Js.truthy (serverFlagVersion config) then "server"
         else if Js.truthy (serverLocalFlagVersion config) then
           if Js.truthy (agentsUp config)
           then "server-local-" +:+ agentsUp config
           else "server-local"
         else if enableSaml config then "saml" else "standard".
Proof.
  intros Hp.
  destruct (parsed_mode K H _ _ _ _ _ Hp) as (Hserver & Hlocal & Hnone).
  pose proof (parsed_agentsUp K H _ _ _ _ _ Hp) as Hagents.
  destruct (Js.truthy (serverFlagVersion config)) eqn:Hs.
  - apply truthy_true in Hs. destruct (Hserver Hs) as (_ & Hm & Hv).
    rewrite (configure_server K config processEnv Hm), Hv.
    apply truthy_true in Hs. rewrite Hs. simpl.
    eexists. split; [reflexivity|]. split; [simpl; auto | reflexivity].
  - apply truthy_false in Hs.
    destruct (Js.truthy (serverLocalFlagVersion config)) eqn:Hl.
    + apply truthy_true in Hl. destruct (Hlocal Hs Hl) as (Hm & Hv).
      rewrite (configure_server_local K config processEnv Hm), Hv.
      apply truthy_true in Hl. rewrite Hl. simpl.
      eexists. split; [reflexivity|]. split; [|reflexivity].
      simpl in Hagents.
      destruct Hagents as [<-|[<-|[<-|[<-|[]]]]]; simpl; auto 10.
    + apply truthy_false in Hl. destruct (Hnone Hs Hl) as (_ & Hm).
      destruct (enableSaml config).
      * rewrite (configure_saml K config processEnv Hm).
        eexists. split; [reflexivity|]. split; [simpl; auto | reflexivity].
      * rewrite (configure_unset K config processEnv Hm).
        eexists. split; [reflexivity|]. split; [simpl; auto | reflexivity].
Qed.

Lemma parsed_config_configures_witness :
  exists profile,
    snd (configureModeAndSecurity Sample.constants
           (SampleEnv.parsed ["up"; "--server-local"; "tag"; "-a"; "none"])
           ∅)
    = Return profile
    /\ In profile parsedProfiles
    /\ profile = "server-local-without".
Proof.
  exact (parsed_config_configures Sample.constants
           (Sample.host Sample.devFiles)
           ["up"; "--server-local"; "tag"; "-a"; "none"] Sample.devPaths
           ∅ ∅
           (SampleEnv.parsed ["up"; "--server-local"; "tag"; "-a"; "none"])
           ∅ eq_refl).
Defined.

(** X10. At most one action, and only from the allow-set: the action of
    a returned configuration is unset or is a token of [argv] that is
    one of [ACTIONS]; an action token met when one is already set ends
    the parse in a [ValidationError] naming both, and a bare token that
    is no action ends it in the [ValidationError] for positional
    arguments. *)
Theorem parseArguments_single_action
    (K : AppConstants) (H : Host) (argv : list string)
    (envPaths : EnvironmentPaths) (env : ProcessEnv) :
  (forall env' config,
     parseArguments K H argv envPaths env = Some (env', Return config) ->
     action config = ""
     \/ (In (action config) (ACTIONS K) /\ In (action config) argv))
  /\ (forall config index arg,
        dispatch K arg = CaseDefault -> Js.startsWith arg "-" = false ->
        In arg (ACTIONS K) -> action config <> "" ->
        scanStep K H argv envPaths config index env arg
        = (env, Throw (ValidationError
                         (msgActionProvidedMultiple (action config) arg))))
  /\ (forall config index arg,
        dispatch K arg = CaseDefault -> Js.startsWith arg "-" = false ->
        ~ In arg (ACTIONS K) ->
        scanStep K H argv envPaths config index env arg
        = (env, Throw (ValidationError (msgPositionalArgsNotAllowed arg)))).
Proof.
  split; [|split].
  - intros env' config Hp.
    destruct (parseArguments_returns K H _ _ _ _ _ Hp)
      as (scanned & checked & Hscan & Hcheck & Hmap).
    destruct (postScanChecks_keeps H _ _ _ Hcheck) as (Ha & _).
    destruct (mapModeFlags_keeps _ _ Hmap) as (Hb & _).
    rewrite Hb, Ha.
    apply (scanLoop_invariant K H
             (fun c => action c = ""
                       \/ (In (action c) (ACTIONS K) /\ In (action c) argv))
             _ _ _ _ _ _ _ _) with (3 := Hscan); [|now left].
    intros c i e arg e' c' i' Harg Hs Hc.
    eapply scanStep_action; eassumption.
  - intros config index arg Hd Hs Ha Hc. unfold scanStep.
    apply has_In in Ha. apply truthy_true in Hc.
    now rewrite Hd, Hs, Ha, Hc.
  - intros config index arg Hd Hs Ha. unfold scanStep.
    rewrite Hd, Hs.
    destruct (Js.has (ACTIONS K) arg) eqn:Hh; [|reflexivity].
    apply has_In in Hh. contradiction.
Qed.

Section PathChecksFacts.

Variable H : Host.

Lemma checkDashboardBase_checked envPaths config config' :
  checkDashboardBase H envPaths config = Return config' ->
  config' = config
  /\ (useDashboardFromSource config = true ->
      Js.startsWith (dashboardBase config) "/" = true
      /\ ensureAccessibleHostPath H (dashboardBase config)
           "Dashboard base path" envPaths = None).
Proof.
  unfold checkDashboardBase, bind, check. intros Hc.
  destruct (useDashboardFromSource config);
    [|injection Hc as <-; split; [reflexivity | discriminate]].
  destruct (negb (Js.truthy (dashboardBase config))
            || negb (Js.startsWith (dashboardBase config) "/")) eqn:Ht;
    [discriminate|].
  apply orb_false_iff in Ht as [_ Ht]. apply negb_false_iff in Ht.
  destruct (ensureAccessibleHostPath H (dashboardBase config) _ envPaths)
    eqn:He; [discriminate|].
  injection Hc as <-. auto.
Qed.

Lemma checkPluginsRoot_checked envPaths config config' :
  checkPluginsRoot H envPaths config = Return config' ->
  config' = config
  /\ (pluginsRoot config <> "" ->
      ensureAccessibleHostPath H (pluginsRoot config) "Base path" envPaths
      = None).
Proof.
  unfold checkPluginsRoot, bind, check. intros Hc.
  destruct (Js.truthy (pluginsRoot config)) eqn:Ht.
  - destruct (ensureAccessibleHostPath H (pluginsRoot config) _ envPaths)
      eqn:He; [discriminate|]. injection Hc as <-. auto.
  - apply truthy_false in Ht. injection Hc as <-. split; [reflexivity|].
    congruence.
Qed.

Lemma defaultPluginsRoot_fields envPaths config :
  useDashboardFromSource (defaultPluginsRoot H envPaths config)
  = useDashboardFromSource config
  /\ dashboardBase (defaultPluginsRoot H envPaths config)
     = dashboardBase config
  /\ (pluginsRoot (defaultPluginsRoot H envPaths config) = "" ->
      currentRepoHostRoot envPaths = ""
      \/ stripTrailingSlash H
           (resolve H (currentRepoHostRoot envPaths) "plugins") = "").
Proof.
  unfold defaultPluginsRoot.
  destruct (Js.truthy (pluginsRoot config)) eqn:Hp; simpl.
  - apply truthy_true in Hp. repeat split. congruence.
  - destruct (Js.truthy (currentRepoHostRoot envPaths)) eqn:Hc; simpl.
    + repeat split. auto.
    + apply truthy_false in Hc. repeat split. auto.
Qed.

Lemma postScanChecks_checked envPaths config config' :
  postScanChecks H envPaths config = Return config' ->
  (useDashboardFromSource config' = true ->
   Js.startsWith (dashboardBase config') "/" = true
   /\ ensureAccessibleHostPath H (dashboardBase config')
        "Dashboard base path" envPaths = None)
  /\ (pluginsRoot config' <> "" ->
      ensureAccessibleHostPath H (pluginsRoot config') "Base path" envPaths
      = None)
  /\ (pluginsRoot config' = "" ->
      currentRepoHostRoot envPaths = ""
      \/ stripTrailingSlash H
           (resolve H (currentRepoHostRoot envPaths) "plugins") = "").
Proof.
  unfold postScanChecks, bind. intros Hp.
  destruct (inferDashboardBase H envPaths config) as [c1| |];
    try discriminate.
  destruct (checkDashboardBase H envPaths c1) as [c2| |] eqn:Hd;
    try discriminate.
  apply checkDashboardBase_checked in Hd as [-> Hd].
  apply checkPluginsRoot_checked in Hp as [-> Hp].
  destruct (defaultPluginsRoot_fields envPaths c1) as (Hu & Hb & Hr).
  rewrite Hu, Hb. auto.
Qed.

End PathChecksFacts.

(** X11. The paths of a returned configuration have been checked: with
    [useDashboardFromSource] set, [dashboardBase] is absolute and has
    passed the accessibility check; a non-empty [pluginsRoot] has passed
    the accessibility check; and [pluginsRoot] is left empty only when
    no current-repository root is set (or its [plugins] directory strips
    to nothing). *)
Theorem parseArguments_paths_checked
    (K : AppConstants) (H : Host) (argv : list string)
    (envPaths : EnvironmentPaths) (env env' : ProcessEnv) (config : Config) :
  parseArguments K H argv envPaths env = Some (env', Return config) ->
  (useDashboardFromSource config = true ->
   Js.startsWith (dashboardBase config) "/" = true
   /\ ensureAccessibleHostPath H (dashboardBase config)
        "Dashboard base path" envPaths = None)
  /\ (pluginsRoot config <> "" ->
      ensureAccessibleHostPath H (pluginsRoot config) "Base path" envPaths
      = None)
  /\ (pluginsRoot config = "" ->
      currentRepoHostRoot envPaths = ""
      \/ stripTrailingSlash H
           (resolve H (currentRepoHostRoot envPaths) "plugins") = "").
Proof.
  intros Hp.
  destruct (parseArguments_returns K H _ _ _ _ _ Hp)
    as (scanned & checked & _ & Hcheck & Hmap).
  destruct (mapModeFlags_keeps _ _ Hmap)
    as (_ & _ & _ & _ & _ & Hr & Hu & Hb & _ & _).
  rewrite Hr, Hu, Hb. exact (postScanChecks_checked H _ _ _ Hcheck).
Qed.

Lemma parseArguments_paths_checked_witness :
  (Js.startsWith (dashboardBase (SampleEnv.parsed ["up"; "--base"])) "/"
   = true
   /\ ensureAccessibleHostPath (Sample.host Sample.devFiles)
        (dashboardBase (SampleEnv.parsed ["up"; "--base"]))
        "Dashboard base path" Sample.devPaths = None)
  /\ dashboardBase (SampleEnv.parsed ["up"; "--base"])
     = "/dev/wazuh-dashboard".
Proof.
  split; [|reflexivity].
  apply (proj1 (parseArguments_paths_checked Sample.constants
                  (Sample.host Sample.devFiles) ["up"; "--base"]
                  Sample.devPaths ∅ ∅ (SampleEnv.parsed ["up"; "--base"])
                  eq_refl)).
  reflexivity.
Defined.

(** ** The argument parser: exits, termination *)

Section ScanLoopFacts.

Variable K : AppConstants.
Variable H : Host.

Lemma scanStep_exit argv envPaths config index env arg env' code :
  scanStep K H argv envPaths config index env arg = (env', Exit code) ->
  code = 1 /\ dispatch K arg = CaseHelp /\ env' = env.
Proof.
  intros Hs. scan_cases; try discriminate.
  injection Hs as <- <-. auto.
Qed.

Lemma scanLoop_exit fuel argv envPaths config index env env' code :
  scanLoop K H fuel argv envPaths config index env = Some (env', Exit code) ->
  code = 1 /\ exists arg, In arg argv /\ dispatch K arg = CaseHelp.
Proof.
  revert config index env.
  induction fuel as [|fuel IH]; intros config index env Hl;
    simpl in Hl; destruct (argv !! index) as [arg|] eqn:Ha;
    try discriminate.
  destruct (scanStep K H argv envPaths config index env arg)
    as [env1 [[config1 index1]|e|c]] eqn:Hs; try discriminate.
  - eapply IH. exact Hl.
  - injection Hl as <- <-. apply scanStep_exit in Hs as (-> & Hd & _).
    split; [reflexivity|]. exists arg. split; [|exact Hd].
    apply list_elem_of_In. eapply list_elem_of_lookup_2. exact Ha.
Qed.

Lemma finishParse_no_exit envPaths config code :
  finishParse H envPaths config <> Exit code.
Proof.
  unfold finishParse, postScanChecks, inferDashboardBase, checkDashboardBase,
    checkPluginsRoot, mapModeFlags, bind, check.
  split_tests; discriminate.
Qed.

Lemma scanStep_advance argv envPaths config index env arg env' config'
    index' :
  scanStep K H argv envPaths config index env arg
  = (env', Return (config', index')) ->
  index' = index + 1 \/ index' = index + 2.
Proof.
  intros Hs. scan_cases; try discriminate;
    injection Hs as _ _ <-; lia.
Qed.

(** More fuel never changes a result. *)
Lemma scanLoop_more_fuel fuel fuel' argv envPaths config index env result :
  fuel <= fuel' ->
  scanLoop K H fuel argv envPaths config index env = Some result ->
  scanLoop K H fuel' argv envPaths config index env = Some result.
Proof.
  revert fuel' config index env.
  induction fuel as [|fuel IH]; intros fuel' config index env Hle Hl.
  - simpl in Hl. destruct (argv !! index) eqn:Ha; [discriminate|].
    destruct fuel'; simpl; now rewrite Ha.
  - destruct fuel' as [|fuel']; [lia|]. simpl in *.
    destruct (argv !! index) as [arg|]; [|exact Hl].
    destruct (scanStep K H argv envPaths config index env arg)
      as [env1 [[config1 index1]|e|c]]; try exact Hl.
    apply IH; [lia | exact Hl].
Qed.

End ScanLoopFacts.

(** X12. The parse leaves the process only through the help flags: an
    exit has status 1 and some token of [argv] is a help flag; when the
    first token is a help flag the parse exits at once, whatever
    follows, and the environment is untouched. *)
Theorem parseArguments_exit_only_by_help
    (K : AppConstants) (H : Host) (argv : list string)
    (envPaths : EnvironmentPaths) (env : ProcessEnv) :
  (forall env' code,
     parseArguments K H argv envPaths env = Some (env', Exit code) ->
     code = 1 /\ exists arg, In arg argv /\ dispatch K arg = CaseHelp)
  /\ (forall arg rest,
        argv = arg :: rest -> dispatch K arg = CaseHelp ->
        parseArguments K H argv envPaths env = Some (env, Exit 1)).
Proof.
  split.
  - intros env' code Hp. unfold parseArguments in Hp.
    destruct (scanLoop K H (length argv) argv envPaths newConfig 0 env)
      as [[env1 [c|e|code1]]|] eqn:Hl; try discriminate.
    + injection Hp as _ Hf. now apply finishParse_no_exit in Hf.
    + injection Hp as <- <-. eapply scanLoop_exit. exact Hl.
  - intros arg rest -> Hd. unfold parseArguments. simpl.
    unfold scanStep. now rewrite Hd.
Qed.

(** X13. The scan terminates: an iteration that continues moves the
    index forward by one or two tokens, so [length argv] iterations
    always suffice, the parse always has an outcome, and more iterations
    than that give the same result. *)
Theorem scan_terminates
    (K : AppConstants) (H : Host) (argv : list string)
    (envPaths : EnvironmentPaths) (env : ProcessEnv) :
  (forall config index arg env' config' index',
     scanStep K H argv envPaths config index env arg
     = (env', Return (config', index')) ->
     index' = index + 1 \/ index' = index + 2)
  /\ (exists result, parseArguments K H argv envPaths env = Some result)
  /\ (forall fuel, length argv <= fuel ->
        scanLoop K H fuel argv envPaths newConfig 0 env
        = scanLoop K H (length argv) argv envPaths newConfig 0 env).
Proof.
  split; [|split].
  - intros config index arg env' config' index' Hs.
    eapply scanStep_advance. exact Hs.
  - exact (parseArguments_total K H argv envPaths env).
  - intros fuel Hle.
    destruct (scanLoop_total K H (length argv) argv envPaths newConfig 0 env)
      as [result Hr]; [lia|].
    rewrite Hr. eapply scanLoop_more_fuel; eassumption.
Qed.

(** ** The argument parser: the explicit repository form *)

Lemma prefix_empty s : String.prefix "" s = true.
Proof. now destruct s. Qed.

Lemma includes_sep_cons a s :
  Js.includes (String a s) "=" = Ascii.eqb a "=" || Js.includes s "=".
Proof.
  cbn [Js.includes String.prefix].
  destruct (ascii_dec "=" a) as [<-|Hne].
  - now rewrite prefix_empty.
  - assert (Hf : Ascii.eqb a "=" = false)
      by (apply Ascii.eqb_neq; congruence).
    now rewrite Hf.
Qed.

Lemma split_no_separator s :
  Js.includes s "=" = false -> Js.split s "=" = [s].
Proof.
  induction s as [|a s IH]; [reflexivity|].
  rewrite includes_sep_cons. intros Hi.
  apply orb_false_iff in Hi as [Ha Hs].
  cbn [Js.split]. now rewrite Ha, (IH Hs).
Qed.

Lemma split_at_separator s rest :
  Js.includes s "=" = false ->
  Js.split (s +:+ "=" +:+ rest) "=" = s :: Js.split rest "=".
Proof.
  induction s as [|a s IH]; [reflexivity|].
  rewrite includes_sep_cons. intros Hi.
  apply orb_false_iff in Hi as [Ha Hs].
  change (String a s +:+ "=" +:+ rest) with (String a (s +:+ "=" +:+ rest)).
  cbn [Js.split]. now rewrite Ha, (IH Hs).
Qed.

Lemma includes_at_separator s rest :
  Js.includes (s +:+ "=" +:+ rest) "=" = true.
Proof.
  induction s as [|a s IH].
  - change ("" +:+ "=" +:+ rest) with (String "="%char rest).
    rewrite includes_sep_cons. reflexivity.
  - change (String a s +:+ "=" +:+ rest)
      with (String a (s +:+ "=" +:+ rest)).
    rewrite includes_sep_cons, IH. apply orb_true_r.
Qed.

Lemma append_empty_r s : s +:+ "" = s.
Proof.
  induction s as [|a s IH]; [reflexivity|].
  change (String a s +:+ "") with (String a (s +:+ "")). now rewrite IH.
Qed.

(** The first two pieces of [name=path] followed by nothing or by a
    further [=...]. *)
Lemma split_name_path repoName repoPath tail :
  Js.includes repoName "=" = false ->
  Js.includes repoPath "=" = false ->
  tail = "" \/ (exists more, tail = "=" +:+ more) ->
  exists others,
    Js.split (repoName +:+ "=" +:+ repoPath +:+ tail) "="
    = repoName :: repoPath :: others.
Proof.
  intros Hn Hp Ht. rewrite (split_at_separator _ _ Hn).
  destruct Ht as [->|[more ->]].
  - rewrite append_empty_r.
    rewrite (split_no_separator _ Hp). eauto.
  - rewrite (split_at_separator _ _ Hp). eauto.
Qed.

(** X14. The explicit form [--repo name=path]: the name is the text
    before the first [=] and the path the text between the first and the
    second (anything after a second [=] is dropped without an error);
    an empty name or path is a [ValidationError]; a path that contains
    [/plugins/] is a [ValidationError] whatever the name; any other path
    is recorded as written, at the end of [userRepositories] (it is not
    stripped, and neither absoluteness nor accessibility is checked
    here), and the scan moves past the value. *)
Theorem repo_explicit_form
    (K : AppConstants) (H : Host) (argv : list string)
    (envPaths : EnvironmentPaths) (config : Config) (index : nat)
    (env : ProcessEnv) (arg repoName repoPath tail : string) :
  dispatch K arg = CaseRepo ->
  Js.includes repoName "=" = false ->
  Js.includes repoPath "=" = false ->
  tail = "" \/ (exists more, tail = "=" +:+ more) ->
  argv !! S index = Some (repoName +:+ "=" +:+ repoPath +:+ tail) ->
  scanStep K H argv envPaths config index env arg
  = (env,
     if negb (Js.truthy repoName) || negb (Js.truthy repoPath) then
       Throw (ValidationError
                (invalidRepositorySpecification
                   (repoName +:+ "=" +:+ repoPath +:+ tail)))
     else if Js.includes repoPath "/plugins/" then
       Throw (ValidationError (msgInvalidRepoSubfolder repoName repoPath))
     else
       Return (addUserRepositoryOverride
                 {| name := repoName; path := repoPath |} config,
               index + 2)).
Proof.
  intros Hd Hn Hp Ht Hv. unfold scanStep, repoCase.
  rewrite Hd, Hv, includes_at_separator.
  destruct (split_name_path repoName repoPath tail Hn Hp Ht) as [others ->].
  cbn [nth]. replace (index + 2) with (S (S index)) by lia. reflexivity.
Qed.

Lemma repo_explicit_form_witness :
  scanStep Sample.constants (Sample.host Sample.devFiles)
    ["--repo"; "main=relative/path=ignored"] Sample.devPaths newConfig 0 ∅
    "--repo"
  = (∅, Return (addUserRepositoryOverride
                  {| name := "main"; path := "relative/path" |} newConfig,
                2))
  /\ scanStep Sample.constants (Sample.host Sample.devFiles)
       ["--repo"; "security=/abs/plugins/main"] Sample.devPaths newConfig 0 ∅
       "--repo"
     = (∅, Throw (ValidationError
                    (msgInvalidRepoSubfolder "security"
                       "/abs/plugins/main"))).
Proof.
  split.
  - exact (repo_explicit_form Sample.constants (Sample.host Sample.devFiles)
             ["--repo"; "main=relative/path=ignored"] Sample.devPaths
             newConfig 0 ∅ "--repo" "main" "relative/path" "=ignored"
             eq_refl eq_refl eq_refl
             (or_intror (ex_intro _ "ignored" eq_refl)) eq_refl).
  - exact (repo_explicit_form Sample.constants (Sample.host Sample.devFiles)
             ["--repo"; "security=/abs/plugins/main"] Sample.devPaths
             newConfig 0 ∅ "--repo" "security" "/abs/plugins/main" ""
             eq_refl eq_refl eq_refl (or_introl eq_refl) eq_refl).
Defined.

(** ** The argument parser: flags that test their value *)

Section TestedValueFacts.

Variable K : AppConstants.
Variable H : Host.

(** An empty value is a missing value, except for the agents-up
    case. *)
Lemma required_value_empty argv envPaths config index env arg :
  In (dispatch K arg)
    [ CasePluginsRoot; CaseOsVersion; CaseOsdVersion; CaseServer;
      CaseServerLocal ] ->
  argv !! S index = Some "" ->
  scanStep K H argv envPaths config index env arg
  = (env, Throw (ValidationError (valueMessage K (dispatch K arg)))).
Proof.
  intros Hc Hv. unfold scanStep. rewrite Hv. simpl in Hc.
  intuition; match goal with
             | E : _ = dispatch K arg |- _ => rewrite <- E
             end; reflexivity.
Qed.

(** A plugins-root value that is not absolute. *)
Lemma plugins_root_relative argv envPaths config index env arg value :
  dispatch K arg = CasePluginsRoot ->
  argv !! S index = Some value -> Js.startsWith value "/" = false ->
  scanStep K H argv envPaths config index env arg
  = (env, Throw (ValidationError
                   (msgFlagRequiresAbsolutePath (FLAG_PLUGINS_ROOT K)))).
Proof.
  intros Hc Hv Hs. unfold scanStep. rewrite Hc, Hv, Hs.
  now rewrite orb_true_r.
Qed.

(** The [--base] iteration, in full. *)
Lemma base_result argv envPaths config index env arg :
  dispatch K arg = CaseBase ->
  fst (scanStep K H argv envPaths config index env arg) = env
  /\ match snd (scanStep K H argv envPaths config index env arg) with
     | Return (config', index') =>
         useDashboardFromSource config' = true
         /\ ((index' = index + 2
              /\ exists next,
                  argv !! (index + 1) = Some next /\ next <> ""
                  /\ Js.startsWith next "-" = false
                  /\ ((Js.startsWith next "/" = true
                       /\ dashboardBase config' = stripTrailingSlash H next)
                      \/ (Js.startsWith next "/" = false
                          /\ Js.has (ACTIONS K) next = false
                          /\ dashboardBase config' = dashboardBase config)))
             \/ (index' = index + 1
                 /\ dashboardBase config' = dashboardBase config
                 /\ forall next, argv !! (index + 1) = Some next ->
                      next = "" \/ Js.startsWith next "-" = true
                      \/ Js.has (ACTIONS K) next = true))
     | Throw e =>
         exists next,
           argv !! (index + 1) = Some next
           /\ Js.startsWith next "/" = true
           /\ ensureAccessibleHostPath H (stripTrailingSlash H next)
                "Dashboard base path" envPaths = Some e
     | Exit _ => False
     end.
Proof.
  intros Hc. unfold scanStep. rewrite Hc.
  destruct (argv !! (index + 1)) as [next|] eqn:Hn.
  - destruct (Js.truthy next) eqn:Ht; simpl.
    + apply truthy_true in Ht.
      destruct (Js.startsWith next "/") eqn:Hsl; simpl.
      * split; [reflexivity|]. unfold bind, check.
        destruct (ensureAccessibleHostPath H _ _ _) eqn:He.
        -- exists next. auto.
        -- split; [reflexivity|]. left. split; [reflexivity|].
           exists next. repeat split; auto using leading_slash_not_dash.
      * destruct (Js.startsWith next "-") eqn:Hd; simpl.
        -- repeat split. right. repeat split. intros n [= <-]. auto.
        -- destruct (Js.has (ACTIONS K) next) eqn:Ha; simpl.
           ++ repeat split. right. repeat split. intros n [= <-]. auto.
           ++ repeat split. left. split; [reflexivity|].
              exists next. repeat split; auto.
    + apply truthy_false in Ht. repeat split. right. repeat split.
      intros n [= <-]. auto.
  - repeat split. right. repeat split. discriminate.
Qed.

End TestedValueFacts.

(** X15. The flags that test their value (plugins-root and its two
    aliases, OS version, OSD version, agents-up, server, server-local):
    when the value is absent or starts with a dash, and for all of them
    but agents-up also when it is empty, the iteration ends in the
    [ValidationError] of that flag, with the environment untouched; a
    plugins-root value that is not absolute ends in the same error, and
    the aliases report the primary spelling. *)
Theorem required_value_flags
    (K : AppConstants) (H : Host) (argv : list string)
    (envPaths : EnvironmentPaths) (config : Config) (index : nat)
    (env : ProcessEnv) (flag : string) :
  NoDup (flagNames K) ->
  In flag [ FLAG_PLUGINS_ROOT K; FLAG_PLUGINS_ROOT_WDP K;
            FLAG_PLUGINS_ROOT_WZ_HOME K; FLAG_OS_VERSION K;
            FLAG_OSD_VERSION K; FLAG_AGENTS_UP K; FLAG_SERVER K;
            FLAG_SERVER_LOCAL K ] ->
  (argv !! S index = None
   \/ (exists value,
         argv !! S index = Some value /\ Js.startsWith value "-" = true)
   \/ (argv !! S index = Some "" /\ flag <> FLAG_AGENTS_UP K) ->
   scanStep K H argv envPaths config index env flag
   = (env, Throw (ValidationError (valueMessage K (dispatch K flag)))))
  /\ (forall value,
        In flag [ FLAG_PLUGINS_ROOT K; FLAG_PLUGINS_ROOT_WDP K;
                  FLAG_PLUGINS_ROOT_WZ_HOME K ] ->
        argv !! S index = Some value -> Js.startsWith value "/" = false ->
        scanStep K H argv envPaths config index env flag
        = (env, Throw (ValidationError
                         (msgFlagRequiresAbsolutePath
                            (FLAG_PLUGINS_ROOT K))))).
Proof.
  intros Hnd Hin.
  destruct (dispatch_flags K Hnd)
    as (_ & _ & Hpr & Hwdp & Hwz & Hos & Hosd & Hau & _ & Hsv & Hsl & _).
  split.
  - intros [Hv|[Hv|[Hv Hne]]].
    + apply required_value_checked; [|now left].
      simpl in Hin.
      destruct Hin as [<-|[<-|[<-|[<-|[<-|[<-|[<-|[<-|[]]]]]]]]];
        rewrite ?Hpr, ?Hwdp, ?Hwz, ?Hos, ?Hosd, ?Hau, ?Hsv, ?Hsl;
        simpl; auto 10.
    + apply required_value_checked; [|now right].
      simpl in Hin.
      destruct Hin as [<-|[<-|[<-|[<-|[<-|[<-|[<-|[<-|[]]]]]]]]];
        rewrite ?Hpr, ?Hwdp, ?Hwz, ?Hos, ?Hosd, ?Hau, ?Hsv, ?Hsl;
        simpl; auto 10.
    + apply required_value_empty; [|exact Hv].
      simpl in Hin.
      destruct Hin as [<-|[<-|[<-|[<-|[<-|[<-|[<-|[<-|[]]]]]]]]];
        rewrite ?Hpr, ?Hwdp, ?Hwz, ?Hos, ?Hosd, ?Hau, ?Hsv, ?Hsl;
        simpl; auto 10; contradiction.
  - intros value Hp Hv Hs. apply plugins_root_relative with value; auto.
    simpl in Hp. destruct Hp as [<-|[<-|[<-|[]]]]; assumption.
Qed.

Lemma required_value_flags_witness :
  scanStep Sample.constants (Sample.host Sample.devFiles)
    ["up"; "--server"; "--saml"] Sample.devPaths newConfig 1 ∅ "--server"
  = (∅, Throw (ValidationError
                 (msgText
                    "--server requires a version argument, e.g. --server 4.12.0")))
  /\ scanStep Sample.constants (Sample.host Sample.devFiles)
       ["-wdp"; "relative"] Sample.devPaths newConfig 0 ∅ "-wdp"
     = (∅, Throw (ValidationError
                    (msgFlagRequiresAbsolutePath "--plugins-root"))).
Proof.
  assert (Hnd : NoDup (flagNames Sample.constants)).
  { apply (bool_decide_unpack _). vm_compute. exact I. }
  split.
  - refine (proj1 (required_value_flags Sample.constants
                     (Sample.host Sample.devFiles)
                     ["up"; "--server"; "--saml"] Sample.devPaths newConfig
                     1 ∅ "--server" Hnd _) _).
    + simpl. auto 10.
    + right. left. exists "--saml". split; reflexivity.
  - refine (proj2 (required_value_flags Sample.constants
                     (Sample.host Sample.devFiles) ["-wdp"; "relative"]
                     Sample.devPaths newConfig 0 ∅ "-wdp" Hnd _)
              "relative" _ eq_refl eq_refl).
    + simpl. auto.
    + simpl. auto.
Defined.

(** X16. [--base] always turns [useDashboardFromSource] on and never
    fails on its own: the iteration throws only what the accessibility
    check throws on an absolute next token.  The next token is consumed
    exactly when it is non-empty, has no leading dash, and is absolute
    or is no action: an absolute one becomes [dashboardBase] (trailing
    slash stripped); a relative one is consumed and dropped, leaving
    [dashboardBase] as it was.  A token that is empty, starts with a
    dash or is an action is left for the next iteration. *)
Theorem base_flag_next_token
    (K : AppConstants) (H : Host) (argv : list string)
    (envPaths : EnvironmentPaths) (config : Config) (index : nat)
    (env : ProcessEnv) :
  NoDup (flagNames K) ->
  fst (scanStep K H argv envPaths config index env (FLAG_BASE K)) = env
  /\ match snd (scanStep K H argv envPaths config index env (FLAG_BASE K))
     with
     | Return (config', index') =>
         useDashboardFromSource config' = true
         /\ ((index' = index + 2
              /\ exists next,
                  argv !! (index + 1) = Some next /\ next <> ""
                  /\ Js.startsWith next "-" = false
                  /\ ((Js.startsWith next "/" = true
                       /\ dashboardBase config' = stripTrailingSlash H next)
                      \/ (Js.startsWith next "/" = false
                          /\ Js.has (ACTIONS K) next = false
                          /\ dashboardBase config' = dashboardBase config)))
             \/ (index' = index + 1
                 /\ dashboardBase config' = dashboardBase config
                 /\ forall next, argv !! (index + 1) = Some next ->
                      next = "" \/ Js.startsWith next "-" = true
                      \/ Js.has (ACTIONS K) next = true))
     | Throw e =>
         exists next,
           argv !! (index + 1) = Some next
           /\ Js.startsWith next "/" = true
           /\ ensureAccessibleHostPath H (stripTrailingSlash H next)
                "Dashboard base path" envPaths = Some e
     | Exit _ => False
     end.
Proof.
  intros Hnd. apply base_result.
  now destruct (dispatch_flags K Hnd)
    as (_ & _ & _ & _ & _ & _ & _ & _ & _ & _ & _ & _ & Hb & _).
Qed.

Lemma base_flag_next_token_witness :
  scanStep Sample.constants (Sample.host Sample.devFiles)
    ["--base"; "relative/path"; "up"] Sample.devPaths newConfig 0 ∅ "--base"
  = (∅, Return (setUseDashboardFromSource true newConfig, 2))
  /\ fst (scanStep Sample.constants (Sample.host Sample.devFiles)
            ["--base"; "up"] Sample.devPaths newConfig 0 ∅ "--base") = ∅.
Proof.
  assert (Hnd : NoDup (flagNames Sample.constants)).
  { apply (bool_decide_unpack _). vm_compute. exact I. }
  split; [reflexivity|].
  exact (proj1 (base_flag_next_token Sample.constants
                  (Sample.host Sample.devFiles) ["--base"; "up"]
                  Sample.devPaths newConfig 0 ∅ Hnd)).
Defined.

(** ** The argument parser: the errors it ends in *)

Section ParseErrorFacts.

Variable K : AppConstants.
Variable H : Host.

Lemma scanStep_error argv envPaths config index env arg env' e :
  scanStep K H argv envPaths config index env arg = (env', Throw e) ->
  (exists m, e = ValidationError m)
  \/ (e = TypeError /\ dispatch K arg = CaseRepo /\ argv !! S index = None)
  \/ (exists p label, ensureAccessibleHostPath H p label envPaths = Some e).
Proof.
  intros Hs. scan_cases; try discriminate;
    injection Hs as _ <-;
    repeat match goal with
           | E : Throw _ = Throw _ |- _ => injection E as <-
           end; eauto 6.
Qed.

Lemma scanLoop_error fuel argv envPaths config index env env' e :
  scanLoop K H fuel argv envPaths config index env = Some (env', Throw e) ->
  (exists m, e = ValidationError m)
  \/ (e = TypeError
      /\ exists i arg,
          argv !! i = Some arg /\ dispatch K arg = CaseRepo
          /\ argv !! S i = None)
  \/ (exists p label, ensureAccessibleHostPath H p label envPaths = Some e).
Proof.
  revert config index env.
  induction fuel as [|fuel IH]; intros config index env Hl;
    simpl in Hl; destruct (argv !! index) as [arg|] eqn:Ha;
    try discriminate.
  destruct (scanStep K H argv envPaths config index env arg)
    as [env1 [[config1 index1]|e1|c]] eqn:Hs; try discriminate.
  - eapply IH. exact Hl.
  - injection Hl as _ <-.
    destruct (scanStep_error _ _ _ _ _ _ _ _ Hs) as [Hv|[(Ht & Hd & Hn)|He]];
      eauto 10.
Qed.

Lemma finishParse_error envPaths config e :
  finishParse H envPaths config = Throw e ->
  (exists m, e = ValidationError m)
  \/ (e = ConfigurationError msgCannotInferDashboardBase
      /\ siblingRepoHostRoot envPaths = "")
  \/ (exists p label, ensureAccessibleHostPath H p label envPaths = Some e).
Proof.
  unfold finishParse, postScanChecks, inferDashboardBase, checkDashboardBase,
    checkPluginsRoot, mapModeFlags, bind, check.
  intros Hf. split_tests; try discriminate;
    repeat match goal with
           | E : Throw _ = Throw _ |- _ => injection E as <-
           | E : Return _ = Return _ |- _ => injection E as <-
           end;
    try (injection Hf as <-); eauto 6.
  right. left. split; [reflexivity|].
  match goal with
  | E : negb (Js.truthy _) = true |- _ =>
      apply negb_true_iff, truthy_false in E; exact E
  end.
Qed.

End ParseErrorFacts.

(** X17. The errors a parse can end in: a [ValidationError]; or the
    [ConfigurationError] of the dashboard base that cannot be inferred,
    which needs the sibling root to be unset; or a [TypeError], which
    needs the repository flag to be the last token of [argv]; or
    whatever [ensureAccessibleHostPath] has thrown on one of the paths.
    Nothing else is thrown. *)
Theorem parseArguments_errors
    (K : AppConstants) (H : Host) (argv : list string)
    (envPaths : EnvironmentPaths) (env env' : ProcessEnv) (e : Error) :
  parseArguments K H argv envPaths env = Some (env', Throw e) ->
  (exists m, e = ValidationError m)
  \/ (e = ConfigurationError msgCannotInferDashboardBase
      /\ siblingRepoHostRoot envPaths = "")
  \/ (e = TypeError
      /\ exists i arg,
          argv !! i = Some arg /\ dispatch K arg = CaseRepo
          /\ argv !! S i = None)
  \/ (exists p label, ensureAccessibleHostPath H p label envPaths = Some e).
Proof.
  unfold parseArguments. intros Hp.
  destruct (scanLoop K H (length argv) argv envPaths newConfig 0 env)
    as [[env1 [c|e1|code]]|] eqn:Hl; try discriminate.
  - injection Hp as _ Hf.
    destruct (finishParse_error H _ _ _ Hf) as [Hv|[Hc|He]]; auto.
  - injection Hp as _ <-.
    destruct (scanLoop_error K H _ _ _ _ _ _ _ _ Hl) as [Hv|[Ht|He]]; auto.
Qed.

Lemma parseArguments_errors_witness :
  (exists m, TypeError = ValidationError m)
  \/ (TypeError = ConfigurationError msgCannotInferDashboardBase
      /\ siblingRepoHostRoot Sample.devPaths = "")
  \/ (TypeError = TypeError
      /\ exists i arg,
          ["up"; "--repo"] !! i = Some arg
          /\ dispatch Sample.constants arg = CaseRepo
          /\ ["up"; "--repo"] !! S i = None)
  \/ (exists p label,
        ensureAccessibleHostPath (Sample.host Sample.devFiles) p label
          Sample.devPaths = Some TypeError).
Proof.
  exact (parseArguments_errors Sample.constants
           (Sample.host Sample.devFiles) ["up"; "--repo"] Sample.devPaths
           ∅ ∅ TypeError eq_refl).
Defined.

(** ** The argument parser: the indexer package tag *)

Section IndexerTagFacts.

Variable K : AppConstants.
Variable H : Host.

Lemma scanLoop_invariant_env (P : Config -> ProcessEnv -> Prop) fuel argv
    envPaths config index env env' config' :
  (forall c i e arg e' c' i',
     argv !! i = Some arg ->
     scanStep K H argv envPaths c i e arg = (e', Return (c', i')) ->
     P c e -> P c' e') ->
  P config env ->
  scanLoop K H fuel argv envPaths config index env
  = Some (env', Return config') ->
  P config' env'.
Proof.
  intros Hstep. revert config index env.
  induction fuel as [|fuel IH]; intros config index env Hp Hl;
    simpl in Hl; destruct (argv !! index) as [arg|] eqn:Ha;
    try discriminate; try (now injection Hl as <- <-).
  destruct (scanStep K H argv envPaths config index env arg)
    as [env1 [[config1 index1]|e|code]] eqn:Hs; try discriminate.
  eapply IH; [|exact Hl]. eapply Hstep; eassumption.
Qed.

Lemma scanStep_indexer argv envPaths c i e arg e' c' i' :
  scanStep K H argv envPaths c i e arg = (e', Return (c', i')) ->
  (dispatch K arg = CaseIndexerLocal
   /\ useIndexerFromPackage c' = true
   /\ (e' = e
       \/ exists tag,
           argv !! (i + 1) = Some tag /\ tag <> ""
           /\ e' = <["IMAGE_INDEXER_PACKAGE_TAG" := tag]> e))
  \/ (dispatch K arg <> CaseIndexerLocal
      /\ useIndexerFromPackage c' = useIndexerFromPackage c
      /\ e' = e).
Proof.
  intros Hs. unfold scanStep in Hs.
  destruct (dispatch K arg) eqn:Hd;
    try (right; split; [discriminate|];
         unfold repoCase, printUsageAndExit, bind, check in Hs;
         split_tests; try discriminate;
         injection Hs as <- <- _; split; reflexivity).
  left. split; [reflexivity|].
  destruct (argv !! (i + 1)) as [next|] eqn:Hn.
  - destruct (Js.truthy next) eqn:Ht.
    + injection Hs as <- <- _. split; [reflexivity|]. right.
      exists next. apply truthy_true in Ht. auto.
    + simpl in Hs. injection Hs as <- <- _. auto.
  - injection Hs as <- <- _. auto.
Qed.

End IndexerTagFacts.

(** X18. The indexer tag and the indexer flag go together: when a parse
    returns, [IMAGE_INDEXER_PACKAGE_TAG] either is as it was or holds a
    non-empty token of [argv], and in the second case
    [useIndexerFromPackage] is set; and [useIndexerFromPackage] is set
    only if some token of [argv] is the indexer-local flag. *)
Theorem parseArguments_indexer_tag
    (K : AppConstants) (H : Host) (argv : list string)
    (envPaths : EnvironmentPaths) (env env' : ProcessEnv) (config : Config) :
  parseArguments K H argv envPaths env = Some (env', Return config) ->
  (env' = env
   \/ (useIndexerFromPackage config = true
       /\ exists tag,
           In tag argv /\ tag <> ""
           /\ env' !! "IMAGE_INDEXER_PACKAGE_TAG" = Some tag))
  /\ (useIndexerFromPackage config = true ->
      exists arg, In arg argv /\ dispatch K arg = CaseIndexerLocal).
Proof.
  intros Hp.
  destruct (parseArguments_returns K H _ _ _ _ _ Hp)
    as (scanned & checked & Hscan & Hcheck & Hmap).
  destruct (postScanChecks_keeps H _ _ _ Hcheck)
    as (_ & _ & _ & _ & _ & _ & Hu1 & _).
  destruct (mapModeFlags_keeps _ _ Hmap)
    as (_ & _ & _ & _ & _ & _ & _ & _ & _ & Hu2).
  rewrite Hu2, Hu1.
  apply (scanLoop_invariant_env K H
           (fun c e =>
              (e = env
               \/ (useIndexerFromPackage c = true
                   /\ exists tag,
                       In tag argv /\ tag <> ""
                       /\ e !! "IMAGE_INDEXER_PACKAGE_TAG" = Some tag))
              /\ (useIndexerFromPackage c = true ->
                  exists arg, In arg argv /\ dispatch K arg = CaseIndexerLocal))
           _ _ _ _ _ _ _ _) with (3 := Hscan).
  - intros c i e arg e' c' i' Harg Hs [Henv Huse].
    assert (Hin : In arg argv).
    { apply list_elem_of_In. eapply list_elem_of_lookup_2. exact Harg. }
    destruct (scanStep_indexer K H _ _ _ _ _ _ _ _ _ Hs)
      as [(Hd & Hu & He)|(Hd & Hu & ->)].
    + split; [|eauto].
      destruct He as [->|(tag & Ht & Hne & ->)].
      * destruct Henv as [->|(_ & tag & Ht)]; [now left|].
        right. split; [exact Hu|]. eauto.
      * right. split; [exact Hu|]. exists tag.
        split; [|split; [exact Hne | apply lookup_insert_eq]].
        apply list_elem_of_In. eapply list_elem_of_lookup_2. exact Ht.
    + rewrite Hu. split; [exact Henv | exact Huse].
  - split; [now left | discriminate].
Qed.

Lemma parseArguments_indexer_tag_witness :
  useIndexerFromPackage (SampleEnv.parsed ["up"; "--indexer-local"; "5.0"])
  = true
  /\ exists arg,
      In arg ["up"; "--indexer-local"; "5.0"]
      /\ dispatch Sample.constants arg = CaseIndexerLocal.
Proof.
  split; [reflexivity|].
  apply (proj2 (parseArguments_indexer_tag Sample.constants
                  (Sample.host Sample.devFiles)
                  ["up"; "--indexer-local"; "5.0"] Sample.devPaths ∅
                  (<["IMAGE_INDEXER_PACKAGE_TAG" := "5.0"]> ∅)
                  (SampleEnv.parsed ["up"; "--indexer-local"; "5.0"])
                  eq_refl)).
  reflexivity.
Defined.

(** ** setVersionDerivedEnvironment *)

Lemma includes_char_cons a s c :
  Js.includes (String a s) (String c "")
  = Ascii.eqb a c || Js.includes s (String c "").
Proof.
  cbn [Js.includes String.prefix].
  destruct (ascii_dec c a) as [<-|Hne].
  - now rewrite prefix_empty, Ascii.eqb_refl.
  - assert (Hf : Ascii.eqb a c = false)
      by (apply Ascii.eqb_neq; congruence).
    now rewrite Hf.
Qed.

Lemma removeDots_no_dot text : Js.includes (removeDots text) "." = false.
Proof.
  induction text as [|a rest IH]; [reflexivity|].
  cbn [removeDots]. destruct (Ascii.eqb a ".") eqn:Ha; [exact IH|].
  now rewrite includes_char_cons, Ha, IH.
Qed.

Lemma removeDots_plain text :
  Js.includes text "." = false -> removeDots text = text.
Proof.
  induction text as [|a rest IH]; [reflexivity|].
  rewrite includes_char_cons. intros Hi.
  apply orb_false_iff in Hi as [Ha Hr].
  cbn [removeDots]. now rewrite Ha, (IH Hr).
Qed.

(** X19. [setVersionDerivedEnvironment]: the project name is [os-dev-]
    followed by the version with every dot removed, so the part after
    the prefix never holds a dot (and is the version itself when that
    has none); [WAZUH_STACK] keeps a non-empty value and is otherwise
    set to the empty string; the major track is the 2.x constant
    whatever the version; the call fails to complete exactly when the
    manifest exists and reading it throws, after the first three
    variables are written; without a manifest the development version is
    left alone; nothing beyond the five variables is touched. *)
Theorem setVersionDerivedEnvironment_effects
    (K : AppConstants) (H : Host) (R : Runtime) (osdVersion : string)
    (envPaths : EnvironmentPaths) (env : ProcessEnv) :
  fst (setVersionDerivedEnvironment K H R osdVersion envPaths env)
    !! "COMPOSE_PROJECT_NAME"
  = Some ("os-dev-" +:+ removeDots osdVersion)
  /\ Js.includes (removeDots osdVersion) "." = false
  /\ (Js.includes osdVersion "." = false -> removeDots osdVersion = osdVersion)
  /\ fst (setVersionDerivedEnvironment K H R osdVersion envPaths env)
       !! "WAZUH_STACK"
     = Some (envOr (env !! "WAZUH_STACK") "")
  /\ (snd (setVersionDerivedEnvironment K H R osdVersion envPaths env) = true ->
      fst (setVersionDerivedEnvironment K H R osdVersion envPaths env)
        !! "OSD_MAJOR"
      = Some (OSD_MAJOR_2X K))
  /\ (snd (setVersionDerivedEnvironment K H R osdVersion envPaths env) = false
      <-> existsSync H (packageJsonPath envPaths) = true
          /\ manifestVersion R (packageJsonPath envPaths) = None)
  /\ (existsSync H (packageJsonPath envPaths) = false ->
      fst (setVersionDerivedEnvironment K H R osdVersion envPaths env)
        !! "WAZUH_VERSION_DEVELOPMENT"
      = env !! "WAZUH_VERSION_DEVELOPMENT")
  /\ (forall variable,
        ~ In variable [ "OSD_MAJOR_NUMBER"; "COMPOSE_PROJECT_NAME";
                        "WAZUH_STACK"; "WAZUH_VERSION_DEVELOPMENT";
                        "OSD_MAJOR" ] ->
        fst (setVersionDerivedEnvironment K H R osdVersion envPaths env)
          !! variable
        = env !! variable).
Proof.
  unfold setVersionDerivedEnvironment. cbv zeta.
  replace ((<["COMPOSE_PROJECT_NAME" := "os-dev-" +:+ removeDots osdVersion]>
              (<["OSD_MAJOR_NUMBER" :=
                   parseIntText R (nth 0 (Js.split osdVersion ".") "")]> env))
           !! "WAZUH_STACK") with (env !! "WAZUH_STACK")
    by (now rewrite !lookup_insert_ne by discriminate).
  destruct (existsSync H (packageJsonPath envPaths));
    [destruct (manifestVersion R (packageJsonPath envPaths))|];
    cbn [fst snd];
    (split; [|split; [apply removeDots_no_dot
                     |split; [apply removeDots_plain
                             |split; [|split; [|split; [|split]]]]]]);
    try (intros; discriminate);
    try (intros _; apply lookup_insert_eq);
    try (repeat first [ apply lookup_insert_eq
                      | rewrite lookup_insert_ne by discriminate ];
         reflexivity);
    try (split; [discriminate | intros [? ?]; discriminate]);
    try (split; [auto | reflexivity]);
    try (intros variable Hv; simpl in Hv;
         repeat (rewrite lookup_insert_ne by (intros <-; tauto));
         reflexivity).
Qed.

(** ** Sample runs of the properties above *)

Lemma parseArguments_single_action_witness :
  action (SampleEnv.parsed ["--saml"; "up"]) = "up"
  /\ scanStep Sample.constants (Sample.host Sample.devFiles) ["up"; "down"]
       Sample.devPaths (setAction "up" newConfig) 1 ∅ "down"
     = (∅, Throw (ValidationError (msgActionProvidedMultiple "up" "down")))
  /\ scanStep Sample.constants (Sample.host Sample.devFiles) ["upp"]
       Sample.devPaths newConfig 0 ∅ "upp"
     = (∅, Throw (ValidationError (msgPositionalArgsNotAllowed "upp"))).
Proof.
  split; [reflexivity|].
  destruct (parseArguments_single_action Sample.constants
              (Sample.host Sample.devFiles) ["up"; "down"] Sample.devPaths ∅)
    as (_ & Htwice & _).
  destruct (parseArguments_single_action Sample.constants
              (Sample.host Sample.devFiles) ["upp"] Sample.devPaths ∅)
    as (_ & _ & Hbare).
  split.
  - apply Htwice; [reflexivity | reflexivity | simpl; auto | discriminate].
  - apply Hbare; [reflexivity | reflexivity |].
    simpl. intros [E|[E|[E|[E|[]]]]]; discriminate E.
Defined.

Lemma parseArguments_exit_only_by_help_witness :
  parseArguments Sample.constants (Sample.host Sample.devFiles)
    ["-h"; "--bogus"; "--repo"] Sample.devPaths ∅
  = Some (∅, Exit 1).
Proof.
  apply (proj2 (parseArguments_exit_only_by_help Sample.constants
                  (Sample.host Sample.devFiles) ["-h"; "--bogus"; "--repo"]
                  Sample.devPaths ∅) "-h" ["--bogus"; "--repo"]);
    reflexivity.
Defined.

Lemma setVersionDerivedEnvironment_effects_witness :
  fst (setVersionDerivedEnvironment Sample.constants
         (Sample.host Sample.devFiles) SampleEnv.runtime "2.19.1"
         Sample.devPaths ∅) !! "COMPOSE_PROJECT_NAME"
  = Some "os-dev-2191".
Proof.
  exact (proj1 (setVersionDerivedEnvironment_effects Sample.constants
                  (Sample.host Sample.devFiles) SampleEnv.runtime "2.19.1"
                  Sample.devPaths ∅)).
Defined.

Lemma initializeBaseEnvironment_effects_witness :
  initializeBaseEnvironment SampleEnv.defaults
    (SampleEnv.parsed ["up"]) SampleEnv.presetEnv !! "PASSWORD"
  = Some "secret"
  /\ initializeBaseEnvironment SampleEnv.defaults
       (SampleEnv.parsed ["up"]) SampleEnv.presetEnv !! "OSD_PORT"
     = Some "5602"
  /\ initializeBaseEnvironment SampleEnv.defaults
       (SampleEnv.parsed ["up"]) ∅ !! "PASSWORD"
     = Some "admin".
Proof.
  destruct (initializeBaseEnvironment_effects SampleEnv.defaults
              (SampleEnv.parsed ["up"]) SampleEnv.presetEnv)
    as (Hkeep & _ & Hport & _).
  destruct (initializeBaseEnvironment_effects SampleEnv.defaults
              (SampleEnv.parsed ["up"]) ∅) as (_ & Hdefault & _).
  split; [|split].
  - apply Hkeep; [reflexivity | discriminate].
  - apply Hport; [reflexivity | discriminate].
  - apply Hdefault. left. reflexivity.
Defined.

(** * Flags read by the scan *)

Section FlagPositionFacts.

Variable K : AppConstants.
Variable H : Host.

(** An iteration that continues moves past the tokens of its case. *)
Lemma scanStep_takes argv envPaths config index env arg env' config'
    index' :
  scanStep K H argv envPaths config index env arg
  = (env', Return (config', index')) ->
  index' = index + tokensTaken K argv index arg.
Proof.
  intros Hs. unfold tokensTaken. unfold scanStep in Hs.
  destruct (dispatch K arg);
    unfold repoCase, printUsageAndExit, bind, check in Hs;
    split_tests; try discriminate; injection Hs as _ _ <-; lia.
Qed.



(** What the iteration at a flag position establishes, and every later
    iteration keeps, holds of the configuration the scan ends with. *)
Lemma scanLoop_reaches (P : Config -> Prop) fuel argv envPaths config index
    env env' config' i arg :
  (forall c j e a e' c' j',
     argv !! j = Some a ->
     scanStep K H argv envPaths c j e a = (e', Return (c', j')) ->
     P c -> P c') ->
  argv !! i = Some arg ->
  (forall c e e' c' j',
     scanStep K H argv envPaths c i e arg = (e', Return (c', j')) -> P c') ->
  In i (flagPositions K fuel argv index) ->
  scanLoop K H fuel argv envPaths config index env
  = Some (env', Return config') ->
  P config'.
Proof.
  intros Hkeep Harg Hset. revert config index env.
  induction fuel as [|fuel IH]; intros config index env Hin Hl;
    [destruct Hin|].
  cbn [flagPositions] in Hin. simpl in Hl.
  destruct (argv !! index) as [a|] eqn:Ha; [|destruct Hin].
  destruct (scanStep K H argv envPaths config index env a)
    as [env1 [[config1 index1]|e|code]] eqn:Hs; try discriminate.
  pose proof (scanStep_takes _ _ _ _ _ _ _ _ _ Hs) as Hi.
  destruct Hin as [<-|Hin].
  - rewrite Harg in Ha. injection Ha as <-.
    apply (scanLoop_invariant K H P _ _ _ _ _ _ _ _ Hkeep) with (2 := Hl).
    eapply Hset. exact Hs.
  - eapply IH; [|exact Hl]. now rewrite Hi.
Qed.


(** The server and server-local versions, once recorded, stay
    recorded. *)
Lemma scanStep_server_kept argv envPaths c j e a e' c' j' :
  scanStep K H argv envPaths c j e a = (e', Return (c', j')) ->
  serverFlagVersion c <> "" -> serverFlagVersion c' <> "".
Proof.
  intros Hs Hc. scan_cases; try discriminate;
    injection Hs as _ <- _; try exact Hc.
  simpl. apply truthy_true.
  match goal with
  | E : negb (Js.truthy ?v) || _ = false |- Js.truthy ?v = true =>
      apply orb_false_iff in E as [E _]; now apply negb_false_iff in E
  end.
Qed.

Lemma scanStep_server_local_kept argv envPaths c j e a e' c' j' :
  scanStep K H argv envPaths c j e a = (e', Return (c', j')) ->
  serverLocalFlagVersion c <> "" -> serverLocalFlagVersion c' <> "".
Proof.
  intros Hs Hc. scan_cases; try discriminate;
    injection Hs as _ <- _; try exact Hc.
  simpl. apply truthy_true.
  match goal with
  | E : negb (Js.truthy ?v) || _ = false |- Js.truthy ?v = true =>
      apply orb_false_iff in E as [E _]; now apply negb_false_iff in E
  end.
Qed.

Lemma scanStep_server_set argv envPaths c j e a e' c' j' :
  dispatch K a = CaseServer ->
  scanStep K H argv envPaths c j e a = (e', Return (c', j')) ->
  serverFlagVersion c' <> "".
Proof.
  intros Hd Hs. unfold scanStep in Hs. rewrite Hd in Hs.
  split_tests; try discriminate. injection Hs as _ <- _.
  simpl. apply truthy_true.
  match goal with
  | E : negb (Js.truthy ?v) || _ = false |- Js.truthy ?v = true =>
      apply orb_false_iff in E as [E _]; now apply negb_false_iff in E
  end.
Qed.

Lemma scanStep_server_local_set argv envPaths c j e a e' c' j' :
  dispatch K a = CaseServerLocal ->
  scanStep K H argv envPaths c j e a = (e', Return (c', j')) ->
  serverLocalFlagVersion c' <> "".
Proof.
  intros Hd Hs. unfold scanStep in Hs. rewrite Hd in Hs.
  split_tests; try discriminate. injection Hs as _ <- _.
  simpl. apply truthy_true.
  match goal with
  | E : negb (Js.truthy ?v) || _ = false |- Js.truthy ?v = true =>
      apply orb_false_iff in E as [E _]; now apply negb_false_iff in E
  end.
Qed.


End FlagPositionFacts.

(** An exit has status 1. *)
Lemma parseArguments_exit_status
    (K : AppConstants) (H : Host) (argv : list string)
    (envPaths : EnvironmentPaths) (env env' : ProcessEnv) (code : nat) :
  parseArguments K H argv envPaths env = Some (env', Exit code) -> code = 1.
Proof.
  intros Hp. unfold parseArguments in Hp.
  destruct (scanLoop K H (length argv) argv envPaths newConfig 0 env)
    as [[env1 [c|e|code1]]|] eqn:Hl; try discriminate.
  - injection Hp as _ Hf. now apply finishParse_no_exit in Hf.
  - injection Hp as <- <-. eapply scanLoop_exit. exact Hl.
Qed.

(** C1, as the code has it.  For every [argv] in which both the server
    flag and the server-local flag are supplied with values (each read
    as a flag by the scan, with a non-empty value that has no leading
    dash), [parseArguments] returns no [Config], whatever other flags
    are present: it throws or leaves through the help flag; and when the
    scan completes, the outcome is the [ValidationError] of the combined
    flags if the checks between the scan and the mode mapping pass, and
    otherwise the error of the first of those checks that fails. *)
Theorem parseArguments_both_server_flags
    (K : AppConstants) (H : Host) (argv : list string)
    (envPaths : EnvironmentPaths) (env : ProcessEnv) :
  NoDup (flagNames K) ->
  suppliedAsFlag K argv (FLAG_SERVER K) ->
  suppliedAsFlag K argv (FLAG_SERVER_LOCAL K) ->
  (forall env' config,
     parseArguments K H argv envPaths env <> Some (env', Return config))
  /\ (exists env' outcome,
        parseArguments K H argv envPaths env = Some (env', outcome)
        /\ (outcome = Exit 1 \/ exists e, outcome = Throw e))
  /\ (forall env' scanned,
        scanLoop K H (length argv) argv envPaths newConfig 0 env
        = Some (env', Return scanned) ->
        parseArguments K H argv envPaths env
        = Some (env',
                match postScanChecks H envPaths scanned with
                | Return _ =>
                    Throw (ValidationError msgCannotCombineServerFlags)
                | Throw e => Throw e
                | Exit code => Exit code
                end)).
Proof.
  intros Hnd (i & v & (Hi & Hflag & _) & _) (j & t & (Hj & Hlocal & _) & _).
  destruct (dispatch_flags K Hnd)
    as (_ & _ & _ & _ & _ & _ & _ & _ & _ & Hds & Hdl & _).
  assert (Hrec : forall env' scanned,
            scanLoop K H (length argv) argv envPaths newConfig 0 env
            = Some (env', Return scanned) ->
            serverFlagVersion scanned <> ""
            /\ serverLocalFlagVersion scanned <> "").
  { intros env' scanned Hscan. split.
    - eapply (scanLoop_reaches K H (fun c => serverFlagVersion c <> ""));
        [ | exact Hflag | | exact Hi | exact Hscan ].
      + intros c k e a e' c' k' _ Hs. eapply scanStep_server_kept. exact Hs.
      + intros c e e' c' k' Hs. eapply scanStep_server_set; eassumption.
    - eapply (scanLoop_reaches K H
                (fun c => serverLocalFlagVersion c <> ""));
        [ | exact Hlocal | | exact Hj | exact Hscan ].
      + intros c k e a e' c' k' _ Hs.
        eapply scanStep_server_local_kept. exact Hs.
      + intros c e e' c' k' Hs.
        eapply scanStep_server_local_set; eassumption. }
  assert (Hdone : forall env' scanned,
            scanLoop K H (length argv) argv envPaths newConfig 0 env
            = Some (env', Return scanned) ->
            parseArguments K H argv envPaths env
            = Some (env',
                    match postScanChecks H envPaths scanned with
                    | Return _ =>
                        Throw (ValidationError msgCannotCombineServerFlags)
                    | Throw e => Throw e
                    | Exit code => Exit code
                    end)).
  { intros env' scanned Hscan. destruct (Hrec _ _ Hscan) as [Hs Hl].
    exact (proj2 (recorded_server_flags_fail K H argv envPaths env)
             env' scanned Hscan Hs Hl). }
  assert (Hnone : forall env' config,
            parseArguments K H argv envPaths env
            <> Some (env', Return config)).
  { intros env' config Hp.
    destruct (parseArguments_returns K H _ _ _ _ _ Hp)
      as (scanned & checked & Hscan & Hcheck & _).
    rewrite (Hdone _ _ Hscan), Hcheck in Hp. discriminate Hp. }
  split; [exact Hnone|]. split; [|exact Hdone].
  destruct (parseArguments_total K H argv envPaths env)
    as [[env' [config|e|code]] Hp].
  - now apply Hnone in Hp.
  - exists env', (Throw e). split; [exact Hp|]. right. now exists e.
  - exists env', (Exit code). split; [exact Hp|]. left.
    now rewrite (parseArguments_exit_status K H _ _ _ _ _ Hp).
Qed.

Lemma parseArguments_both_server_flags_witness :
  parseArguments Sample.constants (Sample.host Sample.devFiles)
    ["up"; "--server"; "1.0"; "--saml"; "--server-local"; "tag"]
    Sample.devPaths ∅
  = Some (∅, Throw (ValidationError msgCannotCombineServerFlags)).
Proof.
  assert (Hnd : NoDup (flagNames Sample.constants)).
  { apply (bool_decide_unpack _). vm_compute. exact I. }
  assert (Hserver : suppliedAsFlag Sample.constants
                      ["up"; "--server"; "1.0"; "--saml"; "--server-local";
                       "tag"] "--server").
  { exists 1, "1.0". split; [split; [|split; reflexivity]|].
    - vm_compute. auto.
    - split; [discriminate | reflexivity]. }
  assert (Hlocal : suppliedAsFlag Sample.constants
                     ["up"; "--server"; "1.0"; "--saml"; "--server-local";
                      "tag"] "--server-local").
  { exists 4, "tag". split; [split; [|split; reflexivity]|].
    - vm_compute. auto 10.
    - split; [discriminate | reflexivity]. }
  destruct (parseArguments_both_server_flags Sample.constants
              (Sample.host Sample.devFiles)
              ["up"; "--server"; "1.0"; "--saml"; "--server-local"; "tag"]
              Sample.devPaths ∅ Hnd Hserver Hlocal) as (_ & _ & Hdone).
  exact (Hdone ∅ _ eq_refl).
Defined.




(** X9. The agents-up value: in every [Config] that [parseArguments]
    returns, [agentsUp] is unset or one of "rpm", "deb", "without"; at
    the agents-up iteration the aliases "none" and "0" are stored as
    "without", the values "rpm", "deb", "without" and the empty string
    are stored as they are, and any other value ends the parse in the
    [ValidationError] of the flag. *)
Theorem parseArguments_agentsUp_values
    (K : AppConstants) (H : Host) (argv : list string)
    (envPaths : EnvironmentPaths) (env : ProcessEnv) :
  (forall env' config,
     parseArguments K H argv envPaths env = Some (env', Return config) ->
     In (agentsUp config) ["rpm"; "deb"; "without"; ""])
  /\ (forall config index arg value,
        dispatch K arg = CaseAgentsUp -> argv !! S index = Some value ->
        In value ["none"; "0"] ->
        scanStep K H argv envPaths config index env arg
        = (env, Return (setAgentsUp "without" config, index + 2)))
  /\ (forall config index arg value,
        dispatch K arg = CaseAgentsUp -> argv !! S index = Some value ->
        In value ["rpm"; "deb"; "without"; ""] ->
        scanStep K H argv envPaths config index env arg
        = (env, Return (setAgentsUp value config, index + 2)))
  /\ (forall config index arg value,
        dispatch K arg = CaseAgentsUp -> argv !! S index = Some value ->
        ~ In value ["none"; "0"; "rpm"; "deb"; "without"; ""] ->
        scanStep K H argv envPaths config index env arg
        = (env, Throw (ValidationError
                         (msgInvalidAgentsUp (FLAG_AGENTS_UP K))))).
Proof.
  split; [|split; [|split]].
  - intros env' config Hp.
    exact (parsed_agentsUp K H argv envPaths env env' config Hp).
  - intros config index arg value Hd Hv Hin. unfold scanStep.
    rewrite Hd, Hv. replace (index + 2) with (S (S index)) by lia.
    simpl in Hin. destruct Hin as [<-|[<-|[]]]; reflexivity.
  - intros config index arg value Hd Hv Hin. unfold scanStep.
    rewrite Hd, Hv. replace (index + 2) with (S (S index)) by lia.
    simpl in Hin. destruct Hin as [<-|[<-|[<-|[<-|[]]]]]; reflexivity.
  - intros config index arg value Hd Hv Hin. unfold scanStep.
    rewrite Hd, Hv. simpl in Hin.
    destruct (String.eqb_spec value "none") as [->|Hn]; [tauto|].
    destruct (String.eqb_spec value "0") as [->|Hz]; [tauto|].
    cbn [orb agentsUp setAgentsUp].
    destruct (Js.has ["rpm"; "deb"; "without"; ""] value) eqn:Hh;
      [|reflexivity].
    apply has_In in Hh. simpl in Hh. tauto.
Qed.

Lemma parseArguments_agentsUp_values_witness :
  In (agentsUp (SampleEnv.parsed ["up"; "-a"; "0"]))
    ["rpm"; "deb"; "without"; ""]
  /\ scanStep Sample.constants (Sample.host Sample.devFiles)
       ["up"; "-a"; "none"] Sample.devPaths newConfig 1 ∅ "-a"
     = (∅, Return (setAgentsUp "without" newConfig, 3))
  /\ scanStep Sample.constants (Sample.host Sample.devFiles)
       ["up"; "-a"; "two"] Sample.devPaths newConfig 1 ∅ "-a"
     = (∅, Throw (ValidationError (msgInvalidAgentsUp "-a"))).
Proof.
  destruct (parseArguments_agentsUp_values Sample.constants
              (Sample.host Sample.devFiles) ["up"; "-a"; "0"]
              Sample.devPaths ∅) as (Hvalues & _).
  destruct (parseArguments_agentsUp_values Sample.constants
              (Sample.host Sample.devFiles) ["up"; "-a"; "none"]
              Sample.devPaths ∅) as (_ & Halias & _).
  destruct (parseArguments_agentsUp_values Sample.constants
              (Sample.host Sample.devFiles) ["up"; "-a"; "two"]
              Sample.devPaths ∅) as (_ & _ & _ & Hother).
  split; [|split].
  - exact (Hvalues ∅ (SampleEnv.parsed ["up"; "-a"; "0"]) eq_refl).
  - apply (Halias newConfig 1 "-a" "none");
      [reflexivity | reflexivity | simpl; auto].
  - apply (Hother newConfig 1 "-a" "two"); [reflexivity | reflexivity |].
    simpl. intros [E|[E|[E|[E|[E|[E|[]]]]]]]; discriminate E.
Defined.
